(** * nodes-monitor: discovery parsing, probe statistics and the snapshot table

    A shallow embedding of [monitor.py] and the properties its
    specification states about it.

    The Python values are modelled as follows.
    - [int] is [Z]; [str] is [string], read as a sequence of code points
      below 256; [None]-able fields are [option].
    - [float] is the binary64 format of [SpecFloat]; [/], [*], [round]
      and the formatting of a float are the correctly rounded operations
      CPython performs.
    - Exceptions are the [Err] results of the [result] monad.
    - Lists indexed in place ([rows[index] = ...]) use stdpp's list
      lookup and insert; the file system is a [gmap] from file names to
      contents.
    - The device session, the shell and the clock are oracles: functions
      the development is parametric in. *)

From Stdlib Require Import ZArith QArith Qpower Lia Lqa Bool.
From Stdlib Require Import Ascii String DecimalString.
From Stdlib Require Import Floats.SpecFloat.
From stdpp Require Import base option list gmap strings fin_maps.

Local Open Scope string_scope.
Local Open Scope list_scope.
Local Open Scope Z_scope.

(** ** Exceptions *)

Module Py.

Inductive exn :=
| ZeroDivisionError
| OverflowError
| IndexError
| KeyError
| TypeError.

Inductive result (A : Type) :=
| Ok (a : A)
| Err (e : exn).
Arguments Ok {A} a.
Arguments Err {A} e.

Definition bind {A B} (m : result A) (k : A -> result B) : result B :=
  match m with
  | Ok a => k a
  | Err e => Err e
  end.

(** [str(z)] for an [int]. *)
Definition str_int (z : Z) : string := NilZero.string_of_int (Z.to_int z).

(** [f"{v}"] for a value that is a [str] or [None]. *)
Definition str_opt (v : option string) : string :=
  match v with
  | Some s => s
  | None => "None"
  end.

End Py.

Notation "x <- m ;; k" := (Py.bind m (fun x => k))
  (at level 100, m at next level, right associativity).

(** ** Floats: binary64 arithmetic as CPython performs it *)

Module PyFloat.
Import Py.

Definition prec : Z := 53.
Definition emax : Z := 1024.

(** An integer as an exact, not yet rounded, mantissa with exponent 0. *)
Definition of_Z_exact (z : Z) : spec_float :=
  match z with
  | Z0 => S754_zero false
  | Zpos p => S754_finite false p 0
  | Zneg p => S754_finite true p 0
  end.

(** [float(z)]: the nearest double; too large an integer raises. *)
Definition of_int (z : Z) : result spec_float :=
  match binary_normalize prec emax z 0 false with
  | S754_infinity _ => Err OverflowError
  | x => Ok x
  end.

(** [a / b] on two integers: the exact quotient rounded once to the
    nearest double (ties to even). *)
Definition int_truediv (a b : Z) : result spec_float :=
  if b =? 0 then Err ZeroDivisionError
  else
    match SFdiv prec emax (of_Z_exact a) (of_Z_exact b) with
    | S754_infinity _ => Err OverflowError
    | q => Ok q
    end.

(** [x * k] for a float [x] and an integer [k]: [k] is converted first. *)
Definition mul_int (x : spec_float) (k : Z) : result spec_float :=
  y <- of_int k ;; Ok (SFmul prec emax x y).

(** The integer nearest to [num / den], ties to the even one ([0 < den]). *)
Definition round_half_even (num den : Z) : Z :=
  let q := num / den in
  match (2 * (num mod den)) ?= den with
  | Lt => q
  | Eq => if Z.even q then q else q + 1
  | Gt => q + 1
  end.

(** The exact value [m * 2^e] scaled by [scale] and rounded to an integer. *)
Definition scaled_nearest (m : positive) (e scale : Z) : Z :=
  if 0 <=? e then Zpos m * 2 ^ e * scale
  else round_half_even (Zpos m * scale) (2 ^ (- e)).

(** The double nearest to [k / scale], carrying the sign [s]. *)
Definition of_decimal (s : bool) (k scale : Z) : spec_float :=
  if k =? 0 then S754_zero s
  else SFdiv prec emax (of_Z_exact (if s then - k else k)) (of_Z_exact scale).

(** [round(x, ndigits)] for [0 <= ndigits]: the exact value of [x] is
    rounded to the nearest multiple of [10^-ndigits] (ties to even) and
    that decimal is converted back to the nearest double. Infinities
    and NaN round to themselves. *)
Definition round (x : spec_float) (ndigits : Z) : spec_float :=
  match x with
  | S754_finite s m e =>
      let scale := 10 ^ ndigits in
      of_decimal s (scaled_nearest m e scale) scale
  | _ => x
  end.

(** *** [repr]: the shortest decimal string that reads back as the float *)

(** The double nearest to [c * 10^q]. *)
Definition of_digits (c q : Z) : spec_float :=
  if 0 <=? q then binary_normalize prec emax (c * 10 ^ q) 0 false
  else SFdiv prec emax (of_Z_exact c) (of_Z_exact (10 ^ (- q))).

Definition same_float (x y : spec_float) : bool :=
  match x, y with
  | S754_finite s1 m1 e1, S754_finite s2 m2 e2 =>
      Bool.eqb s1 s2 && Pos.eqb m1 m2 && Z.eqb e1 e2
  | S754_zero s1, S754_zero s2 => Bool.eqb s1 s2
  | S754_infinity s1, S754_infinity s2 => Bool.eqb s1 s2
  | S754_nan, S754_nan => true
  | _, _ => false
  end.

(** For [0 < num / den < 1]: how many zeros follow the decimal point. *)
Fixpoint leading_zeros (fuel : nat) (num den : Z) : Z :=
  match fuel with
  | O => 0
  | S fuel' =>
      if den <=? 10 * num then 0
      else 1 + leading_zeros fuel' (10 * num) den
  end.

(** The position [p] of the decimal point: [10^(p-1) <= num/den < 10^p]. *)
Definition decimal_point (num den : Z) : Z :=
  if den <=? num then Z.of_nat (String.length (str_int (num / den)))
  else - leading_zeros 400 num den.

(** The [n]-digit decimals just below and just above [num/den], either
    of which may read back as [x]; the nearer one is preferred. *)
Definition candidate (x : spec_float) (num den p : Z) (n : Z) : option (Z * Z) :=
  let q := p - n in
  let '(a, b) := if 0 <=? q then (num, den * 10 ^ q) else (num * 10 ^ (- q), den) in
  let lo := a / b in
  let hi := lo + 1 in
  let ok_lo := same_float (of_digits lo q) x in
  let ok_hi := same_float (of_digits hi q) x in
  let near_lo := 2 * (a mod b) <=? b in
  let pick c := if c =? 10 ^ n then Some (1, p + 1) else Some (c, p) in
  match ok_lo, ok_hi with
  | true, true => pick (if near_lo then lo else hi)
  | true, false => pick lo
  | false, true => pick hi
  | false, false => None
  end.

Fixpoint shortest (fuel : nat) (x : spec_float) (num den p n : Z) : Z * Z :=
  match fuel with
  | O => (num / den, 0)
  | S fuel' =>
      match candidate x num den p n with
      | Some r => r
      | None => shortest fuel' x num den p (n + 1)
      end
  end.

(** The digits [c] and decimal point [p] of the shortest representation:
    the value printed is [0.c * 10^p]. *)
Definition shortest_digits (m : positive) (e : Z) : string * Z :=
  let '(num, den) := if 0 <=? e then (Zpos m * 2 ^ e, 1) else (Zpos m, 2 ^ (- e)) in
  let '(c, p) := shortest 17 (S754_finite false m e) num den (decimal_point num den) 1 in
  (str_int c, p).

Fixpoint zeros (n : nat) : string :=
  match n with
  | O => ""
  | S n' => "0" +:+ zeros n'
  end.

Definition take (n : nat) (s : string) : string := substring 0 n s.
Definition drop (n : nat) (s : string) : string := substring n (String.length s - n) s.

(** The layout of [repr]: fixed notation while [-4 < p <= 16], with
    [.0] appended to an integral value; exponent notation otherwise. *)
Definition layout (ds : string) (p : Z) : string :=
  let n := Z.of_nat (String.length ds) in
  if (p <=? -4) || (16 <? p) then
    let ex := p - 1 in
    let mant := if n =? 1 then ds else take 1 ds +:+ "." +:+ drop 1 ds in
    let exs := str_int (Z.abs ex) in
    mant +:+ "e" +:+ (if ex <? 0 then "-" else "+")
         +:+ (if Z.abs ex <? 10 then "0" +:+ exs else exs)
  else if p <=? 0 then "0." +:+ zeros (Z.to_nat (- p)) +:+ ds
  else if n <=? p then ds +:+ zeros (Z.to_nat (p - n)) +:+ ".0"
  else take (Z.to_nat p) ds +:+ "." +:+ drop (Z.to_nat p) ds.

(** [repr(x)], which is also [str(x)] and [format(x, "")]. *)
Definition repr (x : spec_float) : string :=
  match x with
  | S754_nan => "nan"
  | S754_infinity s => if s then "-inf" else "inf"
  | S754_zero s => if s then "-0.0" else "0.0"
  | S754_finite s m e =>
      let '(ds, p) := shortest_digits m e in
      (if s then "-" else "") +:+ layout ds p
  end.

(** *** What the statements about floats speak of *)

(** The rational [m * 2^e]. *)
Definition F2Q (m e : Z) : Q := (inject_Z m * 2 ^ e)%Q.

(** The rational a float stands for (0 for what is not a number). *)
Definition value (x : spec_float) : Q :=
  match x with
  | S754_finite s m e => F2Q (if s then Zneg m else Zpos m) e
  | _ => 0%Q
  end.

Definition nonneg (x : spec_float) : Prop :=
  match x with
  | S754_zero false | S754_finite false _ _ => True
  | _ => False
  end.

Definition exponent_le (x : spec_float) (b : Z) : Prop :=
  match x with
  | S754_finite _ _ e => e <= b
  | _ => True
  end.

(** The tenths [round(x, 1)] settles on. *)
Definition tenths (x : spec_float) : Z :=
  match x with
  | S754_finite _ m e => scaled_nearest m e 10
  | _ => 0
  end.

(** [k / 10] written with one decimal digit. *)
Definition one_decimal (k : Z) : string :=
  str_int (k / 10) +:+ "." +:+ str_int (k mod 10).

End PyFloat.

(** ** Regular expressions: the fragment of [re] the program uses *)

Module Re.

(** A pattern is a sequence of items. Every repetition in the program's
    patterns ranges over a one-character class, so an item is [^], a
    class with its greedy repetition bounds, or a group bracket. *)
Inductive item :=
| Bol
| Chars (cls : ascii -> bool) (lo : nat) (hi : option nat)
| Open (name : string)
| Close.

Definition code (c : ascii) : nat := nat_of_ascii c.

(** [\d] and [\s] as they act on [str] patterns, on code points below 256. *)
Definition digit (c : ascii) : bool :=
  (Nat.leb 48 (code c) && Nat.leb (code c) 57)%bool.

Definition space (c : ascii) : bool :=
  let n := code c in
  ((Nat.leb 9 n && Nat.leb n 13) || (Nat.leb 28 n && Nat.leb n 32)
   || Nat.eqb n 133 || Nat.eqb n 160)%bool.

Definition lit (a : ascii) (c : ascii) : bool := Ascii.eqb a c.

Definition range (a b : ascii) (c : ascii) : bool :=
  (Nat.leb (code a) (code c) && Nat.leb (code c) (code b))%bool.

Definition either (p q : ascii -> bool) (c : ascii) : bool := (p c || q c)%bool.

Definition one (cls : ascii -> bool) : item := Chars cls 1 (Some 1%nat).
Definition plus (cls : ascii -> bool) : item := Chars cls 1 None.
Definition times (n : nat) (cls : ascii -> bool) : item := Chars cls n (Some n).
Definition between (lo hi : nat) (cls : ascii -> bool) : item := Chars cls lo (Some hi).

(** How many leading characters of the input are in the class. *)
Fixpoint run_length (cls : ascii -> bool) (input : list ascii) : nat :=
  match input with
  | c :: input' => if cls c then S (run_length cls input') else O
  | [] => O
  end.

(** Greedy repetition with backtracking: the continuation is tried on
    [n], [n - 1], ... down to [lo] characters; the first success wins. *)
Fixpoint attempt {A} (k : nat -> option A) (lo n : nat) : option A :=
  if Nat.ltb n lo then None
  else
    match k n with
    | Some r => Some r
    | None =>
        match n with
        | O => None
        | S n' => attempt k lo n'
        end
    end.

(** The groups still open, innermost first, each with the text it has
    consumed so far. *)
Definition feed (cs : list ascii) (opened : list (string * list ascii))
  : list (string * list ascii) :=
  map (fun g => (fst g, snd g ++ cs)) opened.

Fixpoint run (items : list item) (pos : nat)
    (opened : list (string * list ascii)) (closed : list (string * string))
    (input : list ascii) : option (list (string * string)) :=
  match items with
  | [] => Some closed
  | Bol :: items' =>
      if Nat.eqb pos 0 then run items' pos opened closed input else None
  | Open name :: items' => run items' pos ((name, []) :: opened) closed input
  | Close :: items' =>
      match opened with
      | (name, text) :: opened' =>
          run items' pos opened' ((name, string_of_list_ascii text) :: closed) input
      | [] => None
      end
  | Chars cls lo hi :: items' =>
      let avail := run_length cls input in
      let most := match hi with Some h => Nat.min h avail | None => avail end in
      attempt
        (fun n => run items' (pos + n) (feed (firstn n input) opened) closed
                      (skipn n input))
        lo most
  end.

(** [pattern.match(s)] followed by [.groupdict()]: the pattern is tried
    at the start of [s] only; [None] when it does not match there. *)
Definition match_groupdict (pattern : list item) (s : string)
  : option (gmap string string) :=
  match run pattern 0 [] [] (list_ascii_of_string s) with
  | Some closed => Some (list_to_map closed)
  | None => None
  end.

(** [groups[key]]. *)
Definition getitem (groups : gmap string string) (key : string) : Py.result string :=
  match groups !! key with
  | Some v => Py.Ok v
  | None => Py.Err Py.KeyError
  end.

(** A run of class characters that ends the input, or is followed by a
    character outside the class, is the whole run. *)
Definition stops (cls : ascii -> bool) (rest : list ascii) : bool :=
  match rest with
  | [] => true
  | c :: _ => negb (cls c)
  end.

End Re.

(** ** Strings *)

Definition nl : string := String (ascii_of_nat 10) EmptyString.

(** [s.split(sep)] for a one-character separator. *)
Fixpoint split (sep : ascii) (s : string) : list string :=
  match s with
  | EmptyString => [EmptyString]
  | String c s' =>
      if Ascii.eqb c sep then EmptyString :: split sep s'
      else
        match split sep s' with
        | l :: ls => String c l :: ls
        | [] => [String c EmptyString]
        end
  end.

Import Py.

(** ** [class Node] *)

Record Node := mkNode {
  mac_address : string;
  ip_address : option string;
  interface : string;
  vlan : string;
  name : option string;
  last_ping_successful : bool;
  successful_pings : Z;
  failed_pings : Z
}.

(** [Node.__init__] *)
Definition Node_init (mac_address : string) (ip_address : option string)
    (interface vlan : string) : Node :=
  {| mac_address := mac_address;
     ip_address := ip_address;
     interface := interface;
     vlan := vlan;
     name := None;
     last_ping_successful := false;
     successful_pings := 0;
     failed_pings := 0 |}.

(** [Node.__str__], as [str(node)] sees it: a [None] coming back from
    [__str__] is a [TypeError]. *)
Definition Node_str (self : Node) : result string :=
  match name self with
  | Some n => Ok n
  | None =>
      match ip_address self with
      | Some a => Ok a
      | None => Err TypeError
      end
  end.

(** [Node.response_rate] *)
Definition response_rate (self : Node) : result string :=
  if successful_pings self =? 0 then Ok "0%"
  else
    q <- PyFloat.int_truediv (successful_pings self)
           (successful_pings self + failed_pings self) ;;
    p <- PyFloat.mul_int q 100 ;;
    Ok (PyFloat.repr (PyFloat.round p 1) +:+ "%").

(** The state of a Node that the counters are meant to be in. *)
Definition counts_ok (n : Node) : Prop :=
  0 <= successful_pings n /\ 0 <= failed_pings n.

(** ** The world outside the process *)

(** Files by name, the shell commands run so far (oldest first) and the
    number of times the clock has been read. *)
Record World := mkWorld {
  files : gmap string string;
  shell_log : list string;
  clock_reads : nat
}.

Definition read_file (path : string) (w : World) : string :=
  default "" (files w !! path).

(** [open(path, "w")] followed by writes of [content] and a close. *)
Definition write_file (path content : string) (w : World) : World :=
  {| files := <[path := content]> (files w);
     shell_log := shell_log w;
     clock_reads := clock_reads w |}.

(** ** [class Table] *)

Definition row : Type := list (option string).

Record Table := mkTable {
  headers : list string;
  rows : list row
}.

(** [Table.__init__] *)
Definition Table_init : Table :=
  {| headers := ["Interface"; "VLAN"; "MAC Address"; "IP Address"; "Name";
                 "Response Rate"];
     rows := [] |}.

(** The row literal that [pre_populate_table] and [update_row] both build. *)
Definition row_of (node : Node) : result row :=
  r <- response_rate node ;;
  Ok [Some (interface node); Some (vlan node); Some (mac_address node);
      ip_address node; name node; Some r].

(** [Table.pre_populate_table] *)
Fixpoint pre_populate_table (self : Table) (nodes : list Node) : result Table :=
  match nodes with
  | [] => Ok self
  | node :: nodes' =>
      r <- row_of node ;;
      pre_populate_table
        {| headers := headers self; rows := rows self ++ [r] |} nodes'
  end.

(** [Table.update_row]: [self.rows[index] = [...]]. The row is built
    first; a negative index counts from the end; an index outside the
    list raises. *)
Definition update_row (self : Table) (node : Node) (index : Z) : result Table :=
  r <- row_of node ;;
  let n := Z.of_nat (length (rows self)) in
  let i := if index <? 0 then index + n else index in
  if (0 <=? i) && (i <? n) then
    Ok {| headers := headers self; rows := <[Z.to_nat i := r]> (rows self) |}
  else Err IndexError.

Section Program.

(** The oracles: the command session of the device, the reverse lookup
    ([None] when it raises), the exit status and the output of the
    [i]-th shell command, the [i]-th reading of the clock, and the two
    library functions that render a timestamp and a table. *)
Variable send_command : string -> string.
Variable gethostbyaddr : string -> option string.
Variable os_system_status : nat -> string -> Z.
Variable os_system_output : nat -> string -> string.
Variable datetime : Type.
Variable datetime_now : nat -> datetime.
Variable datetime_str : datetime -> string.
Variable tabulate : list row -> list string -> string.

(** [config.INTERFACES] *)
Variable INTERFACES : list string.

(** *** [Device.create_attached_nodes] *)

(** [[0-9a-f\.]] *)
Definition mac_char : ascii -> bool :=
  Re.either (Re.range "0" "9") (Re.either (Re.range "a" "f") (Re.lit ".")).

(** [r"^\*\s(?P<vlan>\d+)\s+(?P<mac_address>[0-9a-f\.]{14})"] *)
Definition mac_line : list Re.item :=
  [ Re.Bol; Re.one (Re.lit "*"); Re.one Re.space;
    Re.Open "vlan"; Re.plus Re.digit; Re.Close;
    Re.plus Re.space;
    Re.Open "mac_address"; Re.times 14 mac_char; Re.Close ].

(** [r"^(?P<ip_address>\d{1,3}\.\d{1,3}\.\d{1,3}\.\d{1,3})\s+(?P<age>\d{2}:\d{2}:\d{2})\s+"] *)
Definition arp_line : list Re.item :=
  [ Re.Bol;
    Re.Open "ip_address";
    Re.between 1 3 Re.digit; Re.one (Re.lit ".");
    Re.between 1 3 Re.digit; Re.one (Re.lit ".");
    Re.between 1 3 Re.digit; Re.one (Re.lit ".");
    Re.between 1 3 Re.digit;
    Re.Close;
    Re.plus Re.space;
    Re.Open "age";
    Re.times 2 Re.digit; Re.one (Re.lit ":");
    Re.times 2 Re.digit; Re.one (Re.lit ":");
    Re.times 2 Re.digit;
    Re.Close;
    Re.plus Re.space ].

(** The body of the loop over the lines of the address table. *)
Fixpoint collect_vlan_and_mac (lines : list string) : result (list (string * string)) :=
  match lines with
  | [] => Ok []
  | line :: lines' =>
      match Re.match_groupdict mac_line line with
      | Some groups =>
          vlan <- Re.getitem groups "vlan" ;;
          mac_address <- Re.getitem groups "mac_address" ;;
          rest <- collect_vlan_and_mac lines' ;;
          Ok ((vlan, mac_address) :: rest)
      | None => collect_vlan_and_mac lines'
      end
  end.

Definition get_vlan_and_mac_addresses (interface : string)
  : result (list (string * string)) :=
  let output := send_command ("show mac address-table interface " +:+ interface) in
  collect_vlan_and_mac (split (ascii_of_nat 10) output).

(** The parsing step of [get_ip_address]: the pattern is matched against
    the whole output, from its first character. *)
Definition parse_ip_address (output : string) : result (option string) :=
  match Re.match_groupdict arp_line output with
  | Some groups =>
      ip_address <- Re.getitem groups "ip_address" ;;
      Ok (Some ip_address)
  | None => Ok None
  end.

Definition get_ip_address (mac_address : string) : result (option string) :=
  parse_ip_address (send_command ("show ip arp | include " +:+ mac_address)).

(** The loop over the pairs: one Node each, appended in order. *)
Fixpoint append_nodes (nodes : list Node) (interface : string)
    (pairs : list (string * string)) : result (list Node) :=
  match pairs with
  | [] => Ok nodes
  | (vlan, mac_address) :: pairs' =>
      ip_address <- get_ip_address mac_address ;;
      append_nodes (nodes ++ [Node_init mac_address ip_address interface vlan])
        interface pairs'
  end.

Definition create_attached_nodes (nodes : list Node) (interface : string)
  : result (list Node) :=
  pairs <- get_vlan_and_mac_addresses interface ;;
  append_nodes nodes interface pairs.

(** *** [Node.nslookup] and [Node.ping] *)

Definition nslookup (self : Node) : Node :=
  {| mac_address := mac_address self;
     ip_address := ip_address self;
     interface := interface self;
     vlan := vlan self;
     name := match ip_address self with
             | Some a => gethostbyaddr a
             | None => None
             end;
     last_ping_successful := last_ping_successful self;
     successful_pings := successful_pings self;
     failed_pings := failed_pings self |}.

Definition ping_command (self : Node) : string :=
  "ping -n 1 -w 2 " +:+ str_opt (ip_address self) +:+ " >> output.txt".

(** [os.system(command)] for a command that ends in [>> output.txt]:
    the command is logged, its output is appended to that file and its
    exit status is returned. *)
Definition os_system (command : string) (w : World) : Z * World :=
  let i := length (shell_log w) in
  (os_system_status i command,
   {| files := <["output.txt" :=
                   read_file "output.txt" w +:+ os_system_output i command]>
                 (files w);
      shell_log := shell_log w ++ [command];
      clock_reads := clock_reads w |}).

(** The two branches of [ping] on the exit status. *)
Definition record_outcome (self : Node) (response : Z) : Node :=
  if response =? 0 then
    {| mac_address := mac_address self;
       ip_address := ip_address self;
       interface := interface self;
       vlan := vlan self;
       name := name self;
       last_ping_successful := true;
       successful_pings := successful_pings self + 1;
       failed_pings := failed_pings self |}
  else
    {| mac_address := mac_address self;
       ip_address := ip_address self;
       interface := interface self;
       vlan := vlan self;
       name := name self;
       last_ping_successful := false;
       successful_pings := successful_pings self;
       failed_pings := failed_pings self + 1 |}.

Definition ping (self : Node) (w : World) : Node * World :=
  let '(response, w') := os_system (ping_command self) w in
  (record_outcome self response, w').

(** *** [Table.save] *)

Definition now (w : World) : datetime * World :=
  (datetime_now (clock_reads w),
   {| files := files w;
      shell_log := shell_log w;
      clock_reads := S (clock_reads w) |}).

Definition artifact (self : Table) (start end_ : datetime) : string :=
  datetime_str start +:+ " - " +:+ datetime_str end_
    +:+ nl +:+ nl +:+ tabulate (rows self) (headers self).

Definition save (self : Table) (start end_ : datetime) (w : World) : World :=
  write_file "output_table.txt" (artifact self start end_) w.

(** *** The monitor loop *)

(** The body of [for node in device.nodes] from position [index] on;
    the Nodes come back in their order, updated in place. *)
Fixpoint monitor_nodes (nodes : list Node) (index : Z) (table : Table)
    (start : datetime) (w : World) : result (list Node * Table * World) :=
  match nodes with
  | [] => Ok ([], table, w)
  | node :: nodes' =>
      match ip_address node with
      | None =>
          r <- monitor_nodes nodes' (index + 1) table start w ;;
          let '(done, table', w') := r in
          Ok (node :: done, table', w')
      | Some _ =>
          let '(node1, w1) := ping node w in
          table1 <- update_row table node1 index ;;
          let '(end_, w2) := now w1 in
          let w3 := save table1 start end_ w2 in
          r <- monitor_nodes nodes' (index + 1) table1 start w3 ;;
          let '(done, table', w') := r in
          Ok (node1 :: done, table', w')
      end
  end.

(** One pass of [while True]. *)
Definition cycle (nodes : list Node) (table : Table) (start : datetime)
    (w : World) : result (list Node * Table * World) :=
  monitor_nodes nodes 0 table start w.

(** The first [n] passes of the loop, which has no exit of its own. *)
Fixpoint monitor (n : nat) (nodes : list Node) (table : Table)
    (start : datetime) (w : World) : result (list Node * Table * World) :=
  match n with
  | O => Ok (nodes, table, w)
  | S n' =>
      r <- cycle nodes table start w ;;
      let '(nodes1, table1, w1) := r in
      monitor n' nodes1 table1 start w1
  end.

(** *** [__main__] *)

(** [for interface in INTERFACES: device.create_attached_nodes(interface)] *)
Fixpoint discover (nodes : list Node) (interfaces : list string)
  : result (list Node) :=
  match interfaces with
  | [] => Ok nodes
  | interface :: interfaces' =>
      nodes' <- create_attached_nodes nodes interface ;;
      discover nodes' interfaces'
  end.

(** The loop that resolves the name of every Node that has an address. *)
Definition resolve_names (nodes : list Node) : list Node :=
  map (fun node =>
         match ip_address node with
         | Some _ => nslookup node
         | None => node
         end) nodes.

(** The program up to the end of the [n]-th pass of the monitor loop.
    Console output is not part of the model. *)
Definition main (n : nat) (w : World) : result (list Node * Table * World) :=
  found <- discover [] INTERFACES ;;
  let nodes := resolve_names found in
  table <- pre_populate_table Table_init nodes ;;
  let '(start, w1) := now w in
  monitor n nodes table start w1.

End Program.


(** ** The shapes the specification names *)

Definition all_in (cls : ascii -> bool) (s : string) : bool :=
  forallb cls (list_ascii_of_string s).

(** A dynamic bound entry of the address table: the marker [*], one
    blank, the digits of the VLAN, blanks, and fourteen characters of a
    MAC address in dotted lowercase hexadecimal, then anything. *)
Definition mac_entry (line vlan mac : string) : Prop :=
  exists (w : ascii) (sp rest : string),
    line = String "*" (String w (vlan +:+ sp +:+ mac +:+ rest)) /\
    Re.space w = true /\
    (1 <= String.length vlan)%nat /\ all_in Re.digit vlan = true /\
    (1 <= String.length sp)%nat /\ all_in Re.space sp = true /\
    String.length mac = 14%nat /\ all_in mac_char mac = true.

Definition octet (s : string) : Prop :=
  (1 <= String.length s <= 3)%nat /\ all_in Re.digit s = true.

Definition two_digits (s : string) : Prop :=
  String.length s = 2%nat /\ all_in Re.digit s = true.

Definition blanks (s : string) : Prop :=
  (1 <= String.length s)%nat /\ all_in Re.space s = true.

(** An address-resolution entry: a dotted network address, blanks, an
    age [hh:mm:ss], blanks, then anything. *)
Definition arp_entry (output ip : string) : Prop :=
  exists a b c d sp1 h m s sp2 rest,
    ip = a +:+ "." +:+ b +:+ "." +:+ c +:+ "." +:+ d /\
    output = ip +:+ sp1 +:+ h +:+ ":" +:+ m +:+ ":" +:+ s +:+ sp2 +:+ rest /\
    octet a /\ octet b /\ octet c /\ octet d /\ blanks sp1 /\
    two_digits h /\ two_digits m /\ two_digits s /\ blanks sp2.

(** The address-resolution parser as the specification words it: the
    lines of the output are searched in order and the first one that
    has the shape of an entry gives the address; no such line, no
    address. *)
Fixpoint first_matching_line (lines : list string) : option string :=
  match lines with
  | [] => None
  | line :: lines' =>
      match Re.match_groupdict arp_line line with
      | Some groups =>
          match groups !! "ip_address" with
          | Some ip => Some ip
          | None => first_matching_line lines'
          end
      | None => first_matching_line lines'
      end
  end.

Definition spec_parse_ip_address (output : string) : option string :=
  first_matching_line (split (ascii_of_nat 10) output).

(** The dictionaries of groups the two patterns give. *)
Definition mac_groups (vlan mac : string) : gmap string string :=
  list_to_map [("mac_address", mac); ("vlan", vlan)].

Definition arp_groups (age ip : string) : gmap string string :=
  list_to_map [("age", age); ("ip_address", ip)].

(** ** The probes of a pass *)

(** The fields of a Node that probing leaves alone. *)
Definition same_identity (a b : Node) : Prop :=
  mac_address a = mac_address b /\ ip_address a = ip_address b /\
  interface a = interface b /\ vlan a = vlan b /\ name a = name b.

(** The shell commands one pass over the Nodes issues, in order: one
    probe for every Node that has an address. *)
Fixpoint probes (nodes : list Node) : list string :=
  match nodes with
  | [] => []
  | node :: nodes' =>
      match ip_address node with
      | Some _ => ping_command node :: probes nodes'
      | None => probes nodes'
      end
  end.

(** ** What the passes do to a Node and to the files *)

Definition has_address (n : Node) : bool :=
  match ip_address n with
  | Some _ => true
  | None => false
  end.

(** [b] is [a] after [k] probes when [a] has an address, and [a] itself
    when it has none. *)
Definition probed_times (k : Z) (a b : Node) : Prop :=
  same_identity a b /\
  if has_address a then
    successful_pings b + failed_pings b
    = successful_pings a + failed_pings a + k /\
    successful_pings a <= successful_pings b /\
    failed_pings a <= failed_pings b
  else b = a.

(** The text a run of shell commands appends to [output.txt]: the
    output of each, in order, the first being the [i]-th command run. *)
Fixpoint ping_outputs (os_system_output : nat -> string -> string) (i : nat)
    (commands : list string) : string :=
  match commands with
  | [] => ""
  | command :: commands' =>
      os_system_output i command
        +:+ ping_outputs os_system_output (S i) commands'
  end.

(** * Properties *)

(** ** Rounding to binary64: how far a rounded value can lie above the
    exact one *)

Module FloatFacts.
Import PyFloat.


Lemma pow2_pos (e : Z) : (0 < 2 ^ e)%Q.
Proof. apply Qpower_0_lt. reflexivity. Qed.

Lemma pow2_add (a b : Z) : (2 ^ (a + b) == 2 ^ a * 2 ^ b)%Q.
Proof. apply Qpower_plus. discriminate. Qed.

Lemma pow2_inject (k : Z) : 0 <= k -> (2 ^ k == inject_Z (2 ^ k))%Q.
Proof. intros Hk. symmetry. apply (Zpower_Qpower 2 k Hk). Qed.

Lemma pow2_le (a b : Z) : a <= b -> (2 ^ a <= 2 ^ b)%Q.
Proof.
  intros Hab.
  replace b with (a + (b - a)) by lia.
  rewrite pow2_add, (pow2_inject (b - a)) by lia.
  assert (H1 : 1 <= 2 ^ (b - a)) by (apply Z.lt_pred_le, Z.pow_pos_nonneg; lia).
  assert (H2 : (inject_Z 1 <= inject_Z (2 ^ (b - a)))%Q) by (rewrite <- Zle_Qle; exact H1).
  change (inject_Z 1) with 1%Q in H2.
  pose proof (pow2_pos a). nra.
Qed.

Lemma F2Q_mono (a b e : Z) : a <= b -> (F2Q a e <= F2Q b e)%Q.
Proof.
  intros Hab. unfold F2Q.
  apply Qmult_le_compat_r.
  - now rewrite <- Zle_Qle.
  - apply Qlt_le_weak, pow2_pos.
Qed.

Lemma F2Q_shift (a e k : Z) : 0 <= k -> (F2Q (a * 2 ^ k) e == F2Q a (e + k))%Q.
Proof.
  intros Hk. unfold F2Q.
  rewrite inject_Z_mult, pow2_add, (pow2_inject k Hk). ring.
Qed.

Lemma F2Q_succ (a e : Z) : (F2Q (a + 1) e == F2Q a e + 2 ^ e)%Q.
Proof. unfold F2Q. rewrite inject_Z_plus. ring. Qed.

(** From a bound on the value back to a bound on the mantissa. *)
Lemma F2Q_lt_pow2 (m e k : Z) :
  e <= k -> (F2Q m e < 2 ^ k)%Q -> m < 2 ^ (k - e).
Proof.
  intros Hek H. unfold F2Q in H.
  replace k with (e + (k - e)) in H by lia.
  rewrite pow2_add, (pow2_inject (k - e)) in H by lia.
  pose proof (pow2_pos e) as Hp.
  rewrite Zlt_Qlt.
  apply Qmult_lt_r with (z := (2 ^ e)%Q); [exact Hp|].
  rewrite (Qmult_comm (inject_Z (2 ^ (k - e)))). exact H.
Qed.

(** *** The number of binary digits *)

Lemma digits2_bounds (p : positive) :
  2 ^ (Zpos (digits2_pos p) - 1) <= Zpos p < 2 ^ Zpos (digits2_pos p).
Proof.
  induction p as [p IH | p IH | ]; cbn [digits2_pos].
  - rewrite Pos2Z.inj_succ. change (Zpos p~1) with (2 * Zpos p + 1).
    replace (Z.succ (Zpos (digits2_pos p)) - 1) with (Z.succ (Zpos (digits2_pos p) - 1)) by lia.
    rewrite !Z.pow_succ_r by lia. lia.
  - rewrite Pos2Z.inj_succ. change (Zpos p~0) with (2 * Zpos p).
    replace (Z.succ (Zpos (digits2_pos p)) - 1) with (Z.succ (Zpos (digits2_pos p) - 1)) by lia.
    rewrite !Z.pow_succ_r by lia. lia.
  - cbn. lia.
Qed.

Lemma Zdigits2_le (m k : Z) : 0 <= k -> 0 <= m < 2 ^ k -> Zdigits2 m <= k.
Proof.
  intros Hk [Hm Hlt]. destruct m as [ | p | p ]; cbn [Zdigits2]; [lia | | lia].
  destruct (digits2_bounds p) as [Hlo _].
  assert (H : 2 ^ (Zpos (digits2_pos p) - 1) < 2 ^ k) by lia.
  apply Z.pow_lt_mono_r_iff in H; lia.
Qed.

Lemma Zdigits2_lt_pow (m : Z) : 0 <= m -> m < 2 ^ Zdigits2 m.
Proof.
  intros Hm. destruct m as [ | p | p ]; cbn [Zdigits2]; [cbn; lia | | lia].
  apply digits2_bounds.
Qed.

(** *** Shifting a mantissa to the right *)

Lemma shr_1_m (mrs : shr_record) :
  0 <= shr_m mrs -> shr_m (shr_1 mrs) = shr_m mrs / 2.
Proof.
  destruct mrs as [m r s]. cbn [shr_m]. intros Hm.
  destruct m as [ | [p | p | ] | p ]; cbn [shr_1 shr_m]; try lia.
  - reflexivity.
  - apply Z.div_unique with (r := 1); lia.
  - apply Z.div_unique with (r := 0); lia.
  - reflexivity.
Qed.

Lemma iter_pos_shr_m (p : positive) :
  forall mrs, 0 <= shr_m mrs ->
    shr_m (SpecFloat.iter_pos shr_1 p mrs) = shr_m mrs / 2 ^ Zpos p.
Proof.
  induction p as [p IH | p IH | ]; intros mrs Hm; cbn [SpecFloat.iter_pos].
  - assert (H1 : 0 <= shr_m (shr_1 mrs))
      by (rewrite shr_1_m by exact Hm; apply Z.div_pos; lia).
    assert (H2 : 0 <= shr_m (SpecFloat.iter_pos shr_1 p (shr_1 mrs)))
      by (rewrite IH by exact H1; apply Z.div_pos; lia).
    rewrite IH, IH, shr_1_m by assumption.
    rewrite !Z.div_div by lia.
    f_equal. change (Zpos p~1) with (2 * Zpos p + 1).
    replace (2 * Zpos p + 1) with (1 + Zpos p + Zpos p) by lia.
    rewrite !Z.pow_add_r by lia. lia.
  - assert (H2 : 0 <= shr_m (SpecFloat.iter_pos shr_1 p mrs))
      by (rewrite IH by exact Hm; apply Z.div_pos; lia).
    rewrite IH, IH by assumption.
    rewrite Z.div_div by lia.
    f_equal. change (Zpos p~0) with (2 * Zpos p).
    replace (2 * Zpos p) with (Zpos p + Zpos p) by lia.
    rewrite Z.pow_add_r by lia. lia.
  - rewrite shr_1_m by exact Hm. reflexivity.
Qed.

Lemma shr_record_of_loc_m (m : Z) (l : location) : shr_m (shr_record_of_loc m l) = m.
Proof. destruct l as [ | [ | | ] ]; reflexivity. Qed.

(** [shr_fexp] brings the exponent up to [fexp] of the magnitude and
    divides the mantissa accordingly. *)
Lemma shr_fexp_spec (m e : Z) (l : location) :
  0 <= m ->
  let E := Z.max e (fexp prec emax (Zdigits2 m + e)) in
  snd (shr_fexp prec emax m e l) = E /\
  shr_m (fst (shr_fexp prec emax m e l)) = m / 2 ^ (E - e).
Proof.
  intros Hm E. unfold shr_fexp, shr.
  destruct (fexp prec emax (Zdigits2 m + e) - e) as [ | p | p ] eqn:Hn;
    cbn [fst snd].
  - replace (E - e) with 0 by lia.
    rewrite shr_record_of_loc_m, Z.pow_0_r, Z.div_1_r. split; [lia | reflexivity].
  - replace (E - e) with (Zpos p) by lia.
    rewrite iter_pos_shr_m by (rewrite shr_record_of_loc_m; exact Hm).
    rewrite shr_record_of_loc_m. split; [lia | reflexivity].
  - replace (E - e) with 0 by lia.
    rewrite shr_record_of_loc_m, Z.pow_0_r, Z.div_1_r. split; [lia | reflexivity].
Qed.

Lemma round_nearest_even_range (m : Z) (l : location) :
  m <= round_nearest_even m l <= m + 1.
Proof.
  destruct l as [ | [ | | ] ]; cbn [round_nearest_even]; try lia.
  destruct (Z.even m); lia.
Qed.

Lemma fexp_eq (x : Z) : fexp prec emax x = Z.max (x - 53) (-1074).
Proof. unfold fexp, emin, prec, emax. lia. Qed.

Lemma F2Q_div_le (m k e : Z) :
  0 <= m -> 0 <= k -> (F2Q (m / 2 ^ k) (e + k) <= F2Q m e)%Q.
Proof.
  intros Hm Hk.
  rewrite <- F2Q_shift by exact Hk.
  apply F2Q_mono.
  rewrite Z.mul_comm. apply Z.mul_div_le. apply Z.pow_pos_nonneg; lia.
Qed.

Lemma F2Q_div_ge (m k e : Z) :
  0 <= m -> 0 <= k -> (F2Q m e - 2 ^ (e + k) <= F2Q (m / 2 ^ k) (e + k))%Q.
Proof.
  intros Hm Hk.
  rewrite <- F2Q_shift by exact Hk.
  assert (Hpow : 0 < 2 ^ k) by (apply Z.pow_pos_nonneg; lia).
  assert (H : m + - (1 * 2 ^ k) <= m / 2 ^ k * 2 ^ k).
  { pose proof (Z.div_mod m (2 ^ k) ltac:(lia)).
    pose proof (Z.mod_pos_bound m (2 ^ k) Hpow). lia. }
  apply (F2Q_mono _ _ e) in H.
  assert (Hs : (F2Q (m + - (1 * 2 ^ k)) e == F2Q m e - 2 ^ (e + k))%Q).
  { unfold F2Q.
    rewrite inject_Z_plus, inject_Z_opp, inject_Z_mult, pow2_add, (pow2_inject k Hk).
    ring. }
  rewrite <- Hs. exact H.
Qed.

Lemma F2Q_scale (a c e : Z) : (F2Q (a * c) e == inject_Z c * F2Q a e)%Q.
Proof. unfold F2Q. rewrite inject_Z_mult. ring. Qed.

Lemma F2Q_zero (e : Z) : (F2Q 0 e == 0)%Q.
Proof. unfold F2Q. ring. Qed.

Lemma F2Q_exp_zero (m : Z) : (F2Q m 0 == inject_Z m)%Q.
Proof. unfold F2Q. change (2 ^ 0)%Q with 1%Q. ring. Qed.

(** *** The rounding step shared by division and multiplication

    [binary_round_aux] on a mantissa [mx >= 0] and exponent [ex] settles
    on an exponent [E]; unless that is too large for the format, the
    result is a non-negative double within a few units [2^E] of
    [mx * 2^ex]. *)
Lemma round_aux_bound (mx ex : Z) (lx : location) :
  0 <= mx ->
  let E := Z.max ex (fexp prec emax (Zdigits2 mx + ex)) in
  let r := binary_round_aux prec emax false mx ex lx in
  E + 1 <= emax - prec ->
  nonneg r /\ exponent_le r (E + 1) /\
  (F2Q mx ex - 3 * 2 ^ E <= value r <= F2Q mx ex + 2 ^ E)%Q.
Proof.
  intros Hmx E r HEmax. unfold r, binary_round_aux. clear r.
  destruct (shr_fexp_spec mx ex lx Hmx) as [He1 Hm1]. fold E in He1, Hm1.
  destruct (shr_fexp prec emax mx ex lx) as [mrs1 e1]. cbn [fst snd] in He1, Hm1.
  subst e1.
  set (m1 := shr_m mrs1) in *.
  set (mr := round_nearest_even m1 (loc_of_shr_record mrs1)).
  assert (HE : ex <= E /\ -1074 <= E)
    by (unfold E; rewrite fexp_eq; lia).
  assert (Hpow : 0 < 2 ^ (E - ex)) by (apply Z.pow_pos_nonneg; lia).
  assert (Hm1_0 : 0 <= m1) by (rewrite Hm1; apply Z.div_pos; lia).
  assert (Hm1_p : m1 < 2 ^ 53).
  { rewrite Hm1. apply Z.div_lt_upper_bound; [exact Hpow|].
    rewrite <- Z.pow_add_r by lia.
    pose proof (Zdigits2_lt_pow mx Hmx) as Hd.
    assert (Hle : 2 ^ Zdigits2 mx <= 2 ^ (E - ex + 53)).
    { apply Z.pow_le_mono_r; [lia|]. unfold E. rewrite fexp_eq. lia. }
    lia. }
  pose proof (F2Q_div_le mx (E - ex) ex Hmx ltac:(lia)) as Hm1_u.
  pose proof (F2Q_div_ge mx (E - ex) ex Hmx ltac:(lia)) as Hm1_l.
  replace (ex + (E - ex)) with E in Hm1_u, Hm1_l by lia.
  rewrite <- Hm1 in Hm1_u, Hm1_l.
  pose proof (round_nearest_even_range m1 (loc_of_shr_record mrs1)) as Hmr.
  fold mr in Hmr.
  assert (Hmr0 : 0 <= mr) by lia.
  destruct (shr_fexp_spec mr E loc_Exact Hmr0) as [He2 Hm2].
  destruct (shr_fexp prec emax mr E loc_Exact) as [mrs2 e2]. cbn [fst snd] in He2, Hm2.
  rewrite <- He2 in Hm2.
  assert (Hd : Zdigits2 mr <= 54).
  { apply Zdigits2_le; [lia|]. split; [lia|].
    change (2 ^ 54) with (2 * 2 ^ 53). lia. }
  assert (He2' : E <= e2 <= E + 1) by (rewrite fexp_eq in He2; lia).
  pose proof (F2Q_div_le mr (e2 - E) E Hmr0 ltac:(lia)) as Hm2_u.
  pose proof (F2Q_div_ge mr (e2 - E) E Hmr0 ltac:(lia)) as Hm2_l.
  replace (E + (e2 - E)) with e2 in Hm2_u, Hm2_l by lia.
  rewrite <- Hm2 in Hm2_u, Hm2_l.
  assert (Hr_u : (F2Q mr E <= F2Q m1 E + 2 ^ E)%Q)
    by (rewrite <- F2Q_succ; apply F2Q_mono; lia).
  assert (Hr_l : (F2Q m1 E <= F2Q mr E)%Q) by (apply F2Q_mono; lia).
  assert (Hp2 : (2 ^ e2 <= 2 * 2 ^ E)%Q).
  { pose proof (pow2_le e2 (E + 1) ltac:(lia)) as H.
    rewrite pow2_add in H. change (2 ^ 1)%Q with 2%Q in H. lra. }
  assert (Hbounds : (F2Q mx ex - 3 * 2 ^ E <= F2Q (shr_m mrs2) e2
                     <= F2Q mx ex + 2 ^ E)%Q) by lra.
  assert (Hm2_0 : 0 <= shr_m mrs2).
  { rewrite Hm2. apply Z.div_pos; [lia|]. apply Z.pow_pos_nonneg; lia. }
  destruct (shr_m mrs2) as [ | m | m ]; [ | | lia].
  - rewrite F2Q_zero in Hbounds. cbn [nonneg exponent_le value].
    split; [exact I|]. split; [exact I | exact Hbounds].
  - destruct (e2 <=? emax - prec) eqn:Hfit; [|apply Z.leb_gt in Hfit; lia].
    cbn [nonneg exponent_le value].
    split; [exact I|]. split; [lia | exact Hbounds].
Qed.

Lemma digits2_mono (p q : positive) :
  Zpos p <= Zpos q -> Zpos (digits2_pos p) <= Zpos (digits2_pos q).
Proof.
  intros Hpq.
  destruct (digits2_bounds p) as [Hlo _], (digits2_bounds q) as [_ Hhi].
  assert (H : 2 ^ (Zpos (digits2_pos p) - 1) < 2 ^ Zpos (digits2_pos q)) by lia.
  apply Z.pow_lt_mono_r_iff in H; lia.
Qed.

(** *** A quotient of at most one

    [s / n] for [0 < s <= n] never overflows; the double it gives is not
    negative and, multiplied by [n], lies within [4 n 2^-52] of [s]. *)
Lemma int_truediv_bound (s n : Z) :
  0 < s -> s <= n ->
  exists q, int_truediv s n = Ok q /\
    nonneg q /\ exponent_le q (-51) /\
    (inject_Z s - 4 * inject_Z n * 2 ^ (-52) <= inject_Z n * value q
     <= inject_Z s + inject_Z n * 2 ^ (-52))%Q.
Proof.
  intros Hs Hsn. unfold int_truediv.
  destruct (n =? 0) eqn:Hn0; [apply Z.eqb_eq in Hn0; lia|]. clear Hn0.
  destruct s as [ | ps | ps ]; [lia | | lia].
  destruct n as [ | pn | pn ]; [lia | | lia].
  cbn [of_Z_exact]. unfold SFdiv, SFdiv_core_binary. cbn [xorb Zdigits2].
  pose proof (digits2_mono ps pn Hsn) as Hd.
  set (d1 := Zpos (digits2_pos ps)) in *.
  set (d2 := Zpos (digits2_pos pn)) in *.
  set (e' := Z.min (fexp prec emax (d1 + 0 - (d2 + 0))) (0 - 0)).
  assert (He' : -1074 <= e' <= -53) by (unfold e'; rewrite fexp_eq; lia).
  destruct (0 - 0 - e') as [ | sh | sh ] eqn:Hsh; [lia | | lia].
  rewrite Z.shiftl_mul_pow2 by lia.
  destruct (Z.div_eucl (Zpos ps * 2 ^ Zpos sh) (Zpos pn)) as [qz r] eqn:Hqr.
  assert (Hq : qz = Zpos ps * 2 ^ Zpos sh / Zpos pn)
    by (unfold Z.div; rewrite Hqr; reflexivity).
  assert (Hpow : 0 < 2 ^ Zpos sh) by (apply Z.pow_pos_nonneg; lia).
  assert (Hq0 : 0 <= qz) by (rewrite Hq; apply Z.div_pos; lia).
  assert (Hq1 : qz <= 2 ^ Zpos sh).
  { rewrite Hq. apply Z.div_le_upper_bound; [lia|]. nia. }
  assert (Hlo : qz * Zpos pn <= Zpos ps * 2 ^ Zpos sh).
  { rewrite Hq, Z.mul_comm. apply Z.mul_div_le. lia. }
  assert (Hhi : Zpos ps * 2 ^ Zpos sh <= (qz + 1) * Zpos pn).
  { pose proof (Z.div_mod (Zpos ps * 2 ^ Zpos sh) (Zpos pn) ltac:(lia)) as Hdm.
    pose proof (Z.mod_pos_bound (Zpos ps * 2 ^ Zpos sh) (Zpos pn) ltac:(lia)) as Hr.
    rewrite <- Hq in Hdm. lia. }
  assert (Hnum : (F2Q (Zpos ps * 2 ^ Zpos sh) e' == inject_Z (Zpos ps))%Q).
  { rewrite F2Q_shift by lia. replace (e' + Zpos sh) with 0 by lia.
    apply F2Q_exp_zero. }
  apply (F2Q_mono _ _ e') in Hlo, Hhi.
  rewrite Hnum in Hlo, Hhi. rewrite F2Q_scale in Hlo, Hhi.
  rewrite F2Q_succ in Hhi.
  assert (Hdq : Zdigits2 qz <= Zpos sh + 1).
  { apply Zdigits2_le; [lia|]. split; [lia|].
    rewrite Z.pow_add_r by lia. lia. }
  pose proof (round_aux_bound qz e' (new_location (Zpos pn) r) Hq0) as Hb.
  cbv zeta in Hb.
  set (E := Z.max e' (fexp prec emax (Zdigits2 qz + e'))) in Hb.
  assert (HE : e' <= E <= -52) by (unfold E; rewrite fexp_eq; lia).
  destruct Hb as (Hnn & Hexp & Hval); [unfold emax, prec; lia|].
  set (q := binary_round_aux prec emax false qz e' (new_location (Zpos pn) r)) in *.
  clearbody q. exists q.
  split; [destruct q as [ [] | | | [] ]; try reflexivity; destruct Hnn|].
  split; [exact Hnn|].
  split; [destruct q; cbn [exponent_le] in *; try exact I; lia|].
  pose proof (pow2_le E (-52) ltac:(lia)) as HpE.
  pose proof (pow2_le e' (-52) ltac:(lia)) as Hpe.
  pose proof (pow2_pos E) as HpE0. pose proof (pow2_pos e') as Hpe0.
  assert (HN : (0 < inject_Z (Zpos pn))%Q) by reflexivity.
  set (N := inject_Z (Zpos pn)) in *. set (S := inject_Z (Zpos ps)) in *.
  set (F := F2Q qz e') in *. set (V := value q) in *.
  set (a := (2 ^ E)%Q) in *. set (b := (2 ^ e')%Q) in *.
  set (eps := (2 ^ (-52))%Q) in *.
  split; nra.
Qed.

Lemma of_int_100 : of_int 100 = Ok (S754_finite false 7036874417766400 (-46)).
Proof. reflexivity. Qed.

(** *** The percentage

    A non-negative double of at most [1 + 2^-52], times [100.0], is a
    non-negative double with a negative exponent, within [3 * 2^-46] of
    the exact product. *)
Lemma mul_100_bound (q : spec_float) :
  nonneg q -> exponent_le q (-51) -> (value q <= 1 + 2 ^ (-52))%Q ->
  exists p, mul_int q 100 = Ok p /\
    nonneg p /\ exponent_le p (-45) /\
    (100 * value q - 3 * 2 ^ (-46) <= value p <= 100 * value q + 2 ^ (-46))%Q.
Proof.
  intros Hnn Hexp Hv. unfold mul_int. rewrite of_int_100. cbn [bind].
  destruct q as [ [] | | | [] m e ]; try destruct Hnn; cbn [SFmul xorb].
  - eexists. split; [reflexivity|]. split; [exact I|]. split; [exact I|].
    cbn [value]. change (2 ^ (-46))%Q with (1 # 70368744177664)%Q. lra.
  - cbn [exponent_le value] in Hexp, Hv.
    set (mx := Zpos (m * 7036874417766400)).
    set (ex := e + -46).
    assert (Hmx0 : 0 <= mx) by (unfold mx; lia).
    assert (Hmx : (F2Q mx ex == 100 * F2Q (Zpos m) e)%Q).
    { unfold mx. rewrite Pos2Z.inj_mul.
      change (Zpos 7036874417766400) with (100 * 2 ^ 46).
      rewrite Z.mul_assoc, F2Q_shift by lia.
      replace (ex + 46) with e by (unfold ex; lia).
      apply F2Q_scale. }
    change (2 ^ (-52))%Q with (1 # 4503599627370496)%Q in Hv.
    assert (Hlt : (F2Q mx ex < 2 ^ 7)%Q).
    { rewrite Hmx. change (2 ^ 7)%Q with 128%Q. lra. }
    apply F2Q_lt_pow2 in Hlt; [|unfold ex; lia].
    assert (Hd : Zdigits2 mx <= 7 - ex).
    { apply Zdigits2_le; [unfold ex; lia|]. split; [exact Hmx0 | exact Hlt]. }
    pose proof (round_aux_bound mx ex loc_Exact Hmx0) as Hb. cbv zeta in Hb.
    set (E := Z.max ex (fexp prec emax (Zdigits2 mx + ex))) in Hb.
    assert (HE : E <= -46) by (unfold E, ex; rewrite fexp_eq; lia).
    destruct Hb as (Hnn' & Hexp' & Hval); [unfold emax, prec; lia|].
    eexists. split; [reflexivity|]. split; [exact Hnn'|].
    split.
    { destruct (binary_round_aux prec emax false mx ex loc_Exact);
        cbn [exponent_le] in *; try exact I; lia. }
    pose proof (pow2_le E (-46) HE) as HpE. pose proof (pow2_pos E) as HpE0.
    rewrite Hmx in Hval. cbn [value]. lra.
Qed.

(** *** Rounding to tenths *)

Lemma round_half_even_range (num den K : Z) :
  0 < den -> 0 <= num -> Z.even K = true -> 2 * num <= (2 * K + 1) * den ->
  0 <= round_half_even num den <= K.
Proof.
  intros Hden Hnum HK Hle. unfold round_half_even.
  pose proof (Z.div_mod num den ltac:(lia)) as Hdm.
  pose proof (Z.mod_pos_bound num den Hden) as Hr.
  assert (Hq0 : 0 <= num / den) by (apply Z.div_pos; lia).
  set (q := num / den) in *. set (r := num mod den) in *.
  assert (HqK : q <= K) by nia.
  destruct (Z.compare_spec (2 * r) den) as [Heq | Hlt | Hgt].
  - destruct (Z.even q) eqn:Hev; [lia|].
    assert (q <> K) by (intros ->; congruence). lia.
  - lia.
  - assert (q < K) by nia. lia.
Qed.

(** The rounded integer is within one half of the quotient. *)
Lemma round_half_even_near (num den : Z) :
  0 < den ->
  - den <= 2 * (round_half_even num den * den - num) <= den.
Proof.
  intros Hden. unfold round_half_even.
  pose proof (Z.div_mod num den ltac:(lia)) as Hdm.
  pose proof (Z.mod_pos_bound num den Hden) as Hr.
  set (q := num / den) in *. set (r := num mod den) in *.
  destruct (Z.compare_spec (2 * r) den) as [Heq | Hlt | Hgt];
    [destruct (Z.even q)| |]; lia.
Qed.

Lemma F2Q_le_Z (m e a : Z) (b : positive) :
  e <= 0 -> (F2Q m e <= a # b)%Q -> m * Zpos b <= a * 2 ^ (- e).
Proof.
  intros He H.
  assert (Hinv : (2 ^ e * inject_Z (2 ^ (- e)) == 1)%Q).
  { rewrite <- pow2_inject by lia. rewrite <- pow2_add.
    replace (e + - e) with 0 by lia. reflexivity. }
  assert (Hm : (inject_Z m == F2Q m e * inject_Z (2 ^ (- e)))%Q).
  { unfold F2Q. rewrite <- Qmult_assoc, Hinv. ring. }
  assert (HP : (0 <= inject_Z (2 ^ (- e)))%Q).
  { change 0%Q with (inject_Z 0). rewrite <- Zle_Qle. apply Z.pow_nonneg. lia. }
  assert (Hle : (inject_Z m <= (a # b) * inject_Z (2 ^ (- e)))%Q).
  { rewrite Hm. apply Qmult_le_compat_r; assumption. }
  unfold Qle in Hle. cbn in Hle. lia.
Qed.

(** [round(p, 1)] of a percentage: a whole number of tenths between 0
    and 1000, within one half of ten times the value of [p]. *)
Lemma tenths_bound (p : spec_float) :
  nonneg p -> exponent_le p (-1) -> (value p <= 100 + 2 ^ (-44))%Q ->
  round p 1 = of_decimal false (tenths p) 10 /\
  0 <= tenths p <= 1000 /\
  (- (1 # 2) <= inject_Z (tenths p) - 10 * value p <= 1 # 2)%Q.
Proof.
  intros Hnn Hexp Hv.
  destruct p as [ [] | | | [] m e ]; try destruct Hnn;
    cbn [exponent_le value tenths] in *.
  - split; [reflexivity|]. split; [lia|].
    change (inject_Z 0) with 0%Q. lra.
  - split; [reflexivity|].
    unfold scaled_nearest.
    destruct (0 <=? e) eqn:H0; [apply Z.leb_le in H0; lia|].
    assert (Hden : 0 < 2 ^ (- e)) by (apply Z.pow_pos_nonneg; lia).
    split.
    + apply round_half_even_range; [exact Hden | lia | reflexivity |].
      change (2 ^ (-44))%Q with (1 # 17592186044416)%Q in Hv.
      assert (Hq : (F2Q (Zpos m) e <= 2001 # 20)%Q) by lra.
      apply F2Q_le_Z in Hq; lia.
    + pose proof (round_half_even_near (Zpos m * 10) (2 ^ (- e)) Hden) as [Hl Hu].
      set (k := round_half_even (Zpos m * 10) (2 ^ (- e))) in *.
      assert (Hk : (F2Q (k * 2 ^ (- e)) e == inject_Z k)%Q).
      { rewrite F2Q_shift by lia. replace (e + - e) with 0 by lia.
        apply F2Q_exp_zero. }
      assert (H1 : (F2Q (1 * 2 ^ (- e)) e == 1)%Q).
      { rewrite F2Q_shift by lia. replace (e + - e) with 0 by lia.
        apply F2Q_exp_zero. }
      assert (Hm : (F2Q (Zpos m * 10) e == 10 * F2Q (Zpos m) e)%Q)
        by apply F2Q_scale.
      assert (Hl' : 2 * (Zpos m * 10) + - (1 * 2 ^ (- e)) <= 2 * (k * 2 ^ (- e))) by lia.
      assert (Hu' : 2 * (k * 2 ^ (- e)) <= 2 * (Zpos m * 10) + 1 * 2 ^ (- e)) by lia.
      apply (F2Q_mono _ _ e) in Hl', Hu'.
      unfold F2Q in Hl', Hu', Hk, H1, Hm |- *.
      rewrite ?inject_Z_plus, ?inject_Z_opp, ?inject_Z_mult in *.
      change (inject_Z 2) with 2%Q in *. change (inject_Z 10) with 10%Q in *.
      change (inject_Z 1) with 1%Q in *.
      set (P := (2 ^ e)%Q) in *. set (D := inject_Z (2 ^ (- e))) in *.
      set (M := inject_Z (Zpos m)) in *. set (K := inject_Z k) in *.
      assert (HlQ : (2 * (M * 10) * P - 1 * D * P <= 2 * (K * D * P))%Q) by lra.
      assert (HuQ : (2 * (K * D * P) <= 2 * (M * 10) * P + 1 * D * P)%Q) by lra.
      lra.
Qed.

Lemma repr_tenths_checked :
  forallb (fun k => String.eqb (repr (of_decimal false k 10)) (one_decimal k))
    (seqZ 0 1001) = true.
Proof. vm_compute. reflexivity. Qed.

(** [repr] of the double nearest to [k / 10] prints [k / 10] with one
    decimal, for every [k] from 0 to 1000. *)
Lemma repr_tenths (k : Z) :
  0 <= k <= 1000 -> repr (of_decimal false k 10) = one_decimal k.
Proof.
  intros Hk. pose proof repr_tenths_checked as H.
  rewrite forallb_forall in H.
  apply String.eqb_eq, H, list_elem_of_In, elem_of_seqZ. lia.
Qed.

(** The three steps of the rate of a Node that has answered a probe:
    they succeed, the result is a whole number of tenths [k] between 0
    and 1000, and [k] is within [1/2 + 2^-39] of the exact
    [1000 * s / (s + f)]. *)
Lemma rate_steps (s f : Z) :
  0 < s -> 0 <= f ->
  exists q p k,
    int_truediv s (s + f) = Ok q /\
    mul_int q 100 = Ok p /\
    round p 1 = of_decimal false k 10 /\
    0 <= k <= 1000 /\
    Z.abs (k * (s + f) - 1000 * s) * 2 ^ 39 <= (s + f) * (2 ^ 38 + 1).
Proof.
  intros Hs Hf.
  destruct (int_truediv_bound s (s + f) Hs ltac:(lia))
    as (q & Hq & Hqn & Hqe & Hqv).
  set (n := s + f) in *.
  assert (HN : (0 < inject_Z n)%Q).
  { change 0%Q with (inject_Z 0). rewrite <- Zlt_Qlt. unfold n. lia. }
  assert (HS : (inject_Z s <= inject_Z n)%Q) by (rewrite <- Zle_Qle; unfold n; lia).
  change (2 ^ (-52))%Q with (1 # 4503599627370496)%Q in Hqv.
  assert (Hq1 : (value q <= 1 + 2 ^ (-52))%Q).
  { change (2 ^ (-52))%Q with (1 # 4503599627370496)%Q. nra. }
  destruct (mul_100_bound q Hqn Hqe Hq1) as (p & Hp & Hpn & Hpe & Hpv).
  change (2 ^ (-46))%Q with (1 # 70368744177664)%Q in Hpv.
  assert (Hp1 : (value p <= 100 + 2 ^ (-44))%Q).
  { change (2 ^ (-52))%Q with (1 # 4503599627370496)%Q in Hq1.
    change (2 ^ (-44))%Q with (1 # 17592186044416)%Q. lra. }
  assert (Hpe' : exponent_le p (-1))
    by (destruct p; cbn [exponent_le] in *; try exact I; lia).
  destruct (tenths_bound p Hpn Hpe' Hp1) as (Hr & Hk & Hkv).
  exists q, p, (tenths p).
  split; [exact Hq|]. split; [exact Hp|]. split; [exact Hr|]. split; [exact Hk|].
  set (k := tenths p) in *.
  assert (Hd : (inject_Z (k * n - 1000 * s)
                == inject_Z n * inject_Z k - 1000 * inject_Z s)%Q).
  { unfold Z.sub. rewrite inject_Z_plus, inject_Z_opp, !inject_Z_mult.
    change (inject_Z 1000) with 1000%Q. ring. }
  set (N := inject_Z n) in *. set (S := inject_Z s) in *.
  set (K := inject_Z k) in *. set (Vq := value q) in *. set (Vp := value p) in *.
  assert (H1 : (N * (- (1 # 2)) <= N * (K - 10 * Vp) <= N * (1 # 2))%Q) by nra.
  assert (H2 : (N * (- (3 # 70368744177664)) <= N * (Vp - 100 * Vq)
                <= N * (1 # 70368744177664))%Q) by nra.
  assert (Hq_le : (inject_Z (k * n - 1000 * s) * inject_Z (2 ^ 39)
                   <= inject_Z (n * (2 ^ 38 + 1)))%Q).
  { rewrite Hd, inject_Z_mult. fold N.
    change (inject_Z (2 ^ 39)) with 549755813888%Q.
    change (inject_Z (2 ^ 38 + 1)) with 274877906945%Q. nra. }
  assert (Hq_ge : (inject_Z (- (n * (2 ^ 38 + 1)))
                   <= inject_Z (k * n - 1000 * s) * inject_Z (2 ^ 39))%Q).
  { rewrite Hd, inject_Z_opp, inject_Z_mult. fold N.
    change (inject_Z (2 ^ 39)) with 549755813888%Q.
    change (inject_Z (2 ^ 38 + 1)) with 274877906945%Q. nra. }
  rewrite <- inject_Z_mult, <- Zle_Qle in Hq_le, Hq_ge.
  lia.
Qed.

End FloatFacts.

(** ** The pattern matcher *)

Module ReFacts.
Import Re.

Lemma attempt_inv {A} (k : nat -> option A) (lo n : nat) (r : A) :
  attempt k lo n = Some r -> exists j, (lo <= j <= n)%nat /\ k j = Some r.
Proof.
  induction n as [ | n IH ]; cbn [attempt].
  - destruct (Nat.ltb 0 lo) eqn:Hlt; [discriminate|].
    apply Nat.ltb_ge in Hlt.
    destruct (k 0%nat) eqn:Hk; [|discriminate].
    intros [= ->]. exists 0%nat. split; [lia | exact Hk].
  - destruct (Nat.ltb (S n) lo) eqn:Hlt; [discriminate|].
    apply Nat.ltb_ge in Hlt.
    destruct (k (S n)) eqn:Hk.
    + intros [= ->]. exists (S n). split; [lia | exact Hk].
    + intros H. destruct (IH H) as (j & Hj & Hkj).
      exists j. split; [lia | exact Hkj].
Qed.

Lemma attempt_hit {A} (k : nat -> option A) (lo n : nat) (r : A) :
  (lo <= n)%nat -> k n = Some r -> attempt k lo n = Some r.
Proof.
  intros Hlo Hk. destruct n as [ | n ]; cbn [attempt].
  - destruct (Nat.ltb 0 lo) eqn:Hlt; [apply Nat.ltb_lt in Hlt; lia|].
    now rewrite Hk.
  - destruct (Nat.ltb (S n) lo) eqn:Hlt; [apply Nat.ltb_lt in Hlt; lia|].
    now rewrite Hk.
Qed.

Lemma run_length_split (cls : ascii -> bool) (j : nat) :
  forall input, (j <= run_length cls input)%nat ->
    input = firstn j input ++ skipn j input /\
    length (firstn j input) = j /\
    forallb cls (firstn j input) = true.
Proof.
  induction j as [ | j IH ]; intros input Hj.
  - repeat split.
  - destruct input as [ | c input ]; cbn [run_length] in Hj; [lia|].
    destruct (cls c) eqn:Hc; [|lia].
    destruct (IH input ltac:(lia)) as (H1 & H2 & H3).
    cbn [firstn skipn forallb length]. rewrite Hc, H2, H3.
    repeat split. cbn. now rewrite <- H1.
Qed.


Lemma run_length_app (cls : ascii -> bool) (cs rest : list ascii) :
  forallb cls cs = true -> (length cs <= run_length cls (cs ++ rest))%nat.
Proof.
  induction cs as [ | c cs IH ]; cbn [forallb app run_length length]; [lia|].
  intros [Hc Hcs]%andb_prop. rewrite Hc. specialize (IH Hcs). lia.
Qed.

Lemma run_length_stops (cls : ascii -> bool) (cs rest : list ascii) :
  forallb cls cs = true -> stops cls rest = true ->
  run_length cls (cs ++ rest) = length cs.
Proof.
  intros Hcs Hrest.
  induction cs as [ | c cs IH ]; cbn [forallb app run_length length] in *.
  - destruct rest as [ | c rest ]; [reflexivity|].
    cbn in Hrest. cbn. now destruct (cls c).
  - apply andb_prop in Hcs as [Hc Hcs]. rewrite Hc, IH by exact Hcs. reflexivity.
Qed.

(** What a successful match of a repeated class says about the input. *)
Lemma run_chars_inv cls lo hi items pos opened closed input r :
  run (Chars cls lo hi :: items) pos opened closed input = Some r ->
  exists cs rest,
    input = cs ++ rest /\ forallb cls cs = true /\
    (lo <= length cs)%nat /\
    match hi with Some h => (length cs <= h)%nat | None => True end /\
    run items (pos + length cs) (feed cs opened) closed rest = Some r.
Proof.
  cbn [run]. intros H. apply attempt_inv in H as (j & [Hlo Hhi] & Hrun).
  assert (Hj : (j <= run_length cls input)%nat) by (destruct hi; lia).
  destruct (run_length_split cls j input Hj) as (Hsplit & Hlen & Hall).
  exists (firstn j input), (skipn j input).
  rewrite Hlen. repeat split; try assumption.
  destruct hi; [lia | exact I].
Qed.

(** The greedy choice: when the run cannot be longer than [cs], the
    first attempt consumes exactly [cs]. *)
Lemma run_chars_greedy cls lo hi items pos opened closed cs rest r :
  forallb cls cs = true -> (lo <= length cs)%nat ->
  match hi with
  | Some h => (h = length cs \/ ((length cs <= h)%nat /\ stops cls rest = true))
  | None => stops cls rest = true
  end ->
  run items (pos + length cs) (feed cs opened) closed rest = Some r ->
  run (Chars cls lo hi :: items) pos opened closed (cs ++ rest) = Some r.
Proof.
  intros Hcs Hlo Hhi Hrun. cbn [run].
  pose proof (run_length_app cls cs rest Hcs) as Happ.
  set (most := match hi with
               | Some h => Nat.min h (run_length cls (cs ++ rest))
               | None => run_length cls (cs ++ rest)
               end).
  assert (Hmost : most = length cs).
  { unfold most. destruct hi as [h | ].
    - destruct Hhi as [-> | [Hle Hstop]]; [lia|].
      rewrite (run_length_stops cls cs rest Hcs Hstop). lia.
    - now rewrite (run_length_stops cls cs rest Hcs Hhi). }
  rewrite Hmost. apply attempt_hit; [exact Hlo|].
  rewrite firstn_app, Nat.sub_diag, firstn_all, firstn_O, app_nil_r.
  rewrite skipn_app, Nat.sub_diag, skipn_all, skipn_O. exact Hrun.
Qed.

(** A last, unbounded repetition succeeds on any run long enough. *)
Lemma run_chars_last cls lo pos opened closed cs rest :
  forallb cls cs = true -> (lo <= length cs)%nat ->
  run [Chars cls lo None] pos opened closed (cs ++ rest) = Some closed.
Proof.
  intros Hcs Hlo. cbn [run].
  pose proof (run_length_app cls cs rest Hcs) as Happ.
  apply attempt_hit; [lia | reflexivity].
Qed.

End ReFacts.

(** ** Strings *)

Lemma string_app_cons (x : ascii) (a b : string) :
  String x a +:+ b = String x (a +:+ b).
Proof. reflexivity. Qed.

Lemma string_app_assoc (a b c : string) : (a +:+ b) +:+ c = a +:+ b +:+ c.
Proof.
  induction a as [ | x a IH ]; [reflexivity|].
  now rewrite !string_app_cons, IH.
Qed.

Lemma list_of_string_app (a b : string) :
  list_ascii_of_string (a +:+ b) = list_ascii_of_string a ++ list_ascii_of_string b.
Proof.
  induction a as [ | x a IH ]; [reflexivity|].
  rewrite string_app_cons. cbn [list_ascii_of_string]. now rewrite IH.
Qed.

Lemma string_of_list_app (a b : list ascii) :
  string_of_list_ascii (a ++ b) = string_of_list_ascii a +:+ string_of_list_ascii b.
Proof.
  induction a as [ | x a IH ]; [reflexivity|].
  cbn [app string_of_list_ascii]. now rewrite IH, string_app_cons.
Qed.

(** ** Node statistics *)

Section NodeFacts.
Import PyFloat.

Lemma response_rate_guard (n : Node) :
  successful_pings n = 0 -> response_rate n = Ok "0%".
Proof. intros H. unfold response_rate. now rewrite H. Qed.

Lemma response_rate_counts_ok (n : Node) :
  counts_ok n -> exists r, response_rate n = Ok r.
Proof.
  intros [Hs Hf]. unfold response_rate.
  destruct (successful_pings n =? 0) eqn:H0; [eexists; reflexivity|].
  apply Z.eqb_neq in H0.
  destruct (FloatFacts.rate_steps (successful_pings n) (failed_pings n))
    as (q & p & k & Hq & Hp & _); [lia | lia |].
  rewrite Hq. cbn [bind]. rewrite Hp. cbn [bind]. eexists; reflexivity.
Qed.

Lemma row_of_counts_ok (n : Node) :
  counts_ok n -> exists r, row_of n = Ok r.
Proof.
  intros H. destruct (response_rate_counts_ok n H) as [r Hr].
  unfold row_of. rewrite Hr. cbn [bind]. eexists; reflexivity.
Qed.

Lemma row_of_columns (n : Node) (r : row) :
  row_of n = Ok r ->
  exists rate, response_rate n = Ok rate /\
    r = [Some (interface n); Some (vlan n); Some (mac_address n);
         ip_address n; name n; Some rate].
Proof.
  unfold row_of. destruct (response_rate n) as [rate | e]; cbn [bind]; [|discriminate].
  intros [= <-]. exists rate. split; reflexivity.
Qed.

Lemma record_outcome_counts_ok (n : Node) (response : Z) :
  counts_ok n -> counts_ok (record_outcome n response).
Proof.
  intros [Hs Hf]. unfold record_outcome, counts_ok.
  destruct (response =? 0); cbn; lia.
Qed.

End NodeFacts.

(** C1. A Node with no successful probe reports exactly ["0%"], whatever
    its count of failed probes is. *)
Theorem response_rate_zero_successes (n : Node) :
  successful_pings n = 0 -> response_rate n = Ok "0%".
Proof. intros H. unfold response_rate. rewrite H. reflexivity. Qed.

Lemma response_rate_zero_successes_witness :
  successful_pings (mkNode "0050.569f.0c60" (Some "10.25.5.37") "Po6" "4" None false 0 7) = 0 /\
  response_rate (mkNode "0050.569f.0c60" (Some "10.25.5.37") "Po6" "4" None false 0 7) = Ok "0%".
Proof.
  split; [reflexivity|].
  apply (response_rate_zero_successes
           (mkNode "0050.569f.0c60" (Some "10.25.5.37") "Po6" "4" None false 0 7)).
  reflexivity.
Defined.

(** C2. A Node that has answered at least one probe reports
    [round(successes / (successes + failures) * 100, 1)] followed by
    ["%"]: the quotient and the product are the doubles Python computes,
    the rounded value is the double nearest to [k / 10] for a whole
    number of tenths [k] between 0 and 1000, and it is printed as the
    integer part of [k / 10], a point and exactly one decimal digit.
    The tenths are those of the exact percentage, up to the error of the
    two floating-point operations: [k] lies within [1/2 + 2^-39] of
    [1000 * successes / (successes + failures)], and while fewer than
    [2^38] probes have been made [k] is a whole number nearest to it. *)
Theorem response_rate_nonzero_successes (n : Node) :
  successful_pings n <> 0 -> counts_ok n ->
  exists q p k,
    PyFloat.int_truediv (successful_pings n)
      (successful_pings n + failed_pings n) = Ok q /\
    PyFloat.mul_int q 100 = Ok p /\
    response_rate n = Ok (PyFloat.repr (PyFloat.round p 1) +:+ "%") /\
    0 <= k <= 1000 /\
    PyFloat.round p 1 = PyFloat.of_decimal false k 10 /\
    response_rate n
    = Ok (str_int (k / 10) +:+ "." +:+ str_int (k mod 10) +:+ "%") /\
    Z.abs (k * (successful_pings n + failed_pings n) - 1000 * successful_pings n)
      * 2 ^ 39
    <= (successful_pings n + failed_pings n) * (2 ^ 38 + 1) /\
    (successful_pings n + failed_pings n < 2 ^ 38 ->
     2 * Z.abs (k * (successful_pings n + failed_pings n)
                - 1000 * successful_pings n)
     <= successful_pings n + failed_pings n).
Proof.
  intros Hne [Hs Hf].
  destruct (FloatFacts.rate_steps (successful_pings n) (failed_pings n))
    as (q & p & k & Hq & Hp & Hr & Hk & Hacc); [lia | lia |].
  assert (Hrate : response_rate n = Ok (PyFloat.repr (PyFloat.round p 1) +:+ "%")).
  { unfold response_rate.
    destruct (successful_pings n =? 0) eqn:H0; [apply Z.eqb_eq in H0; lia|].
    rewrite Hq. cbn [bind]. rewrite Hp. reflexivity. }
  exists q, p, k.
  split; [exact Hq|]. split; [exact Hp|]. split; [exact Hrate|].
  split; [exact Hk|]. split; [exact Hr|]. split; [|split; [exact Hacc|]].
  - rewrite Hrate, Hr, (FloatFacts.repr_tenths k Hk).
    unfold PyFloat.one_decimal. now rewrite !string_app_assoc.
  - change (2 ^ 39) with 549755813888 in Hacc.
    change (2 ^ 38) with 274877906944 in Hacc |- *. lia.
Qed.

Lemma response_rate_nonzero_successes_witness :
  let n := mkNode "0050.569f.0c60" (Some "10.25.5.37") "Po6" "4" None true 1 2 in
  successful_pings n <> 0 /\ counts_ok n /\
  exists q p k,
    PyFloat.int_truediv (successful_pings n)
      (successful_pings n + failed_pings n) = Ok q /\
    PyFloat.mul_int q 100 = Ok p /\
    response_rate n = Ok (PyFloat.repr (PyFloat.round p 1) +:+ "%") /\
    0 <= k <= 1000 /\
    PyFloat.round p 1 = PyFloat.of_decimal false k 10 /\
    response_rate n
    = Ok (str_int (k / 10) +:+ "." +:+ str_int (k mod 10) +:+ "%") /\
    Z.abs (k * (successful_pings n + failed_pings n) - 1000 * successful_pings n)
      * 2 ^ 39
    <= (successful_pings n + failed_pings n) * (2 ^ 38 + 1) /\
    (successful_pings n + failed_pings n < 2 ^ 38 ->
     2 * Z.abs (k * (successful_pings n + failed_pings n)
                - 1000 * successful_pings n)
     <= successful_pings n + failed_pings n).
Proof.
  cbv zeta.
  split; [discriminate|]. split; [split; cbn; lia|].
  apply (response_rate_nonzero_successes
           (mkNode "0050.569f.0c60" (Some "10.25.5.37") "Po6" "4" None true 1 2)).
  - discriminate.
  - split; cbn; lia.
Defined.

(** The rates of the specification's end-to-end scenario, and two
    quotients that fall halfway between two tenths: the double that
    holds [1/16 * 100] is exactly [6.25] and rounds to the even [6.2],
    the double that holds [1/2000 * 100] lies above [0.05] and rounds to
    [0.1]. *)
Example response_rate_examples :
  map (fun '(s, f) =>
         response_rate (mkNode "0050.569f.0c60" (Some "10.25.5.37") "Po6" "4"
                          None true s f))
      [(1, 0); (0, 1); (1, 2); (2, 1); (1, 15); (1, 1999)]
  = [Ok "100.0%"; Ok "0%"; Ok "33.3%"; Ok "66.7%"; Ok "6.2%"; Ok "0.1%"].
Proof. vm_compute. reflexivity. Qed.

(** C10. [response_rate] returns for every Node whose counts are not
    negative and never divides by zero: with no success the division is
    not evaluated (the result is ["0%"] even where the divisor would be
    zero), and with a success the divisor is positive and the division
    yields a float. *)
Theorem response_rate_total (n : Node) :
  counts_ok n ->
  (exists r, response_rate n = Ok r) /\
  response_rate n <> Err ZeroDivisionError /\
  (successful_pings n = 0 -> response_rate n = Ok "0%") /\
  (successful_pings n <> 0 ->
     0 < successful_pings n /\
     0 < successful_pings n + failed_pings n /\
     exists q, PyFloat.int_truediv (successful_pings n)
                 (successful_pings n + failed_pings n) = Ok q).
Proof.
  intros Hok. pose proof Hok as [Hs Hf].
  destruct (response_rate_counts_ok n Hok) as [r Hr].
  split; [exists r; exact Hr|]. split; [rewrite Hr; discriminate|].
  split; [apply response_rate_guard|].
  intros Hne. split; [lia|]. split; [lia|].
  destruct (FloatFacts.rate_steps (successful_pings n) (failed_pings n))
    as (q & _ & _ & Hq & _); [lia | lia |].
  exists q. exact Hq.
Qed.

Lemma response_rate_total_witness :
  let n := Node_init "0050.569f.0c60" (Some "10.25.5.37") "Po6" "4" in
  counts_ok n /\
  PyFloat.int_truediv (successful_pings n) (successful_pings n + failed_pings n)
  = Err ZeroDivisionError /\
  response_rate n = Ok "0%".
Proof.
  cbv zeta. split; [split; cbn; lia|]. split; [reflexivity|].
  apply (response_rate_total (Node_init "0050.569f.0c60" (Some "10.25.5.37") "Po6" "4")).
  - split; cbn; lia.
  - reflexivity.
Defined.

(** C9, as the code has it. A Node without a display name converts to
    its network address as a string ([__str__]); its Table row does not:
    the Name column holds the absent name and the address appears in the
    IP Address column only. *)
Theorem name_fallback_is_in_str_only (n : Node) (a : string) :
  name n = None -> ip_address n = Some a ->
  Node_str n = Ok a /\
  forall r, row_of n = Ok r ->
    r !! 4%nat = Some None /\ r !! 3%nat = Some (Some a).
Proof.
  intros Hname Hip. split.
  - unfold Node_str. now rewrite Hname, Hip.
  - intros r Hr. apply row_of_columns in Hr as (rate & _ & ->).
    cbn. now rewrite Hname, Hip.
Qed.

Lemma name_fallback_is_in_str_only_witness :
  let n := Node_init "0050.569f.0c60" (Some "10.25.5.37") "Po6" "4" in
  name n = None /\ ip_address n = Some "10.25.5.37" /\
  Node_str n = Ok "10.25.5.37" /\
  forall r, row_of n = Ok r ->
    r !! 4%nat = Some None /\ r !! 3%nat = Some (Some "10.25.5.37").
Proof.
  cbv zeta. split; [reflexivity|]. split; [reflexivity|].
  apply (name_fallback_is_in_str_only
           (Node_init "0050.569f.0c60" (Some "10.25.5.37") "Po6" "4") "10.25.5.37");
    reflexivity.
Defined.

(** C9, as the specification has it, fails: the Name column of the row
    of a Node without a display name is absent, not its address. *)
Lemma name_column_fallback_counterexample :
  let n := Node_init "0050.569f.0c60" (Some "10.25.5.37") "Po6" "4" in
  name n = None /\
  exists r, row_of n = Ok r /\
    r !! 4%nat = Some None /\ r !! 4%nat <> Some (ip_address n).
Proof.
  cbv zeta. split; [reflexivity|].
  eexists. split; [reflexivity|]. split; [reflexivity | discriminate].
Qed.

(** ** The Table and the monitor loop *)


Lemma same_identity_refl (a : Node) : same_identity a a.
Proof. repeat split. Qed.

Lemma same_identity_trans (a b c : Node) :
  same_identity a b -> same_identity b c -> same_identity a c.
Proof. unfold same_identity. intros (?&?&?&?&?) (?&?&?&?&?). repeat split; congruence. Qed.

Lemma record_outcome_identity (n : Node) (response : Z) :
  same_identity n (record_outcome n response).
Proof. unfold record_outcome. destruct (response =? 0); repeat split. Qed.

Lemma probes_same_identity (nodes nodes' : list Node) :
  Forall2 same_identity nodes nodes' -> probes nodes' = probes nodes.
Proof.
  induction 1 as [ | a b l l' Hab _ IH ]; [reflexivity|].
  cbn [probes]. destruct Hab as (_ & Hip & _).
  unfold ping_command. rewrite <- Hip, IH. reflexivity.
Qed.

Lemma update_row_ok (t : Table) (node : Node) (i : nat) :
  counts_ok node -> (i < length (rows t))%nat ->
  exists r, row_of node = Ok r /\
    update_row t node (Z.of_nat i)
    = Ok {| headers := headers t; rows := <[i := r]> (rows t) |}.
Proof.
  intros Hok Hi. destruct (row_of_counts_ok node Hok) as [r Hr].
  exists r. split; [exact Hr|]. unfold update_row. rewrite Hr. cbn [bind].
  destruct (Z.of_nat i <? 0) eqn:Hneg; [apply Z.ltb_lt in Hneg; lia|].
  destruct ((0 <=? Z.of_nat i) && (Z.of_nat i <? Z.of_nat (length (rows t)))) eqn:Hin.
  - now rewrite Nat2Z.id.
  - apply andb_false_iff in Hin as [H | H];
      [apply Z.leb_gt in H | apply Z.ltb_ge in H]; lia.
Qed.

Lemma pre_populate_table_ok (nodes : list Node) :
  forall t, Forall counts_ok nodes ->
  exists rs, Forall2 (fun node r => row_of node = Ok r) nodes rs /\
    pre_populate_table t nodes
    = Ok {| headers := headers t; rows := rows t ++ rs |}.
Proof.
  induction nodes as [ | node nodes IH ]; intros t Hok.
  - exists []. split; [constructor|]. cbn. rewrite app_nil_r. now destruct t.
  - apply Forall_cons in Hok as [Hnode Hok].
    destruct (row_of_counts_ok node Hnode) as [r Hr].
    destruct (IH {| headers := headers t; rows := rows t ++ [r] |} Hok)
      as (rs & Hrs & Heq).
    exists (r :: rs). split; [now constructor|].
    cbn [pre_populate_table]. rewrite Hr. cbn [bind]. rewrite Heq. cbn.
    now rewrite <- app_assoc.
Qed.

(** C5. Seeding the Table from any list of Nodes gives one row per
    Node, the row at each position being the projection of the Node at
    that position, whether or not the Node has an address; and
    [update_row] at a valid index puts the projection of the Node there
    and leaves the number of rows and every other row as they were. *)
Theorem table_rows_aligned (nodes : list Node) :
  Forall counts_ok nodes ->
  exists t, pre_populate_table Table_init nodes = Ok t /\
    length (rows t) = length nodes /\
    (forall (i : nat) node, nodes !! i = Some node ->
       exists r, row_of node = Ok r /\ rows t !! i = Some r) /\
    (forall (t0 : Table) node (i : nat),
       counts_ok node -> (i < length (rows t0))%nat ->
       exists r t', row_of node = Ok r /\
         update_row t0 node (Z.of_nat i) = Ok t' /\
         rows t' !! i = Some r /\
         length (rows t') = length (rows t0) /\
         forall j : nat, j <> i -> rows t' !! j = rows t0 !! j).
Proof.
  intros Hok.
  destruct (pre_populate_table_ok nodes Table_init Hok) as (rs & Hrs & Heq).
  eexists. split; [exact Heq|]. cbn [rows Table_init app].
  split; [symmetry; eapply Forall2_length; exact Hrs|]. split.
  - intros i node Hi.
    destruct (Forall2_lookup_l _ _ _ _ _ Hrs Hi) as (r & Hr & Hrow).
    exists r. split; assumption.
  - intros t0 node i Hnode Hi.
    destruct (update_row_ok t0 node i Hnode Hi) as (r & Hr & Hup).
    eexists r, _. split; [exact Hr|]. split; [exact Hup|]. cbn [rows].
    split; [now apply list_lookup_insert_eq|].
    split; [apply length_insert|].
    intros j Hj. now apply list_lookup_insert_ne.
Qed.

Lemma table_rows_aligned_witness :
  let a := Node_init "0050.569f.0c60" (Some "10.25.5.37") "Po6" "4" in
  let b := Node_init "0050.569f.0c61" None "Po7" "4" in
  Forall counts_ok [a; b] /\
  exists t, pre_populate_table Table_init [a; b] = Ok t /\
    length (rows t) = 2%nat /\
    rows t !! 1%nat
    = Some [Some "Po7"; Some "4"; Some "0050.569f.0c61"; None; None; Some "0%"].
Proof.
  cbv zeta.
  assert (Hok : Forall counts_ok
                  [Node_init "0050.569f.0c60" (Some "10.25.5.37") "Po6" "4";
                   Node_init "0050.569f.0c61" None "Po7" "4"]).
  { repeat constructor; cbn; lia. }
  split; [exact Hok|].
  destruct (table_rows_aligned _ Hok) as (t & Ht & Hlen & Hrows & _).
  exists t. split; [exact Ht|]. split; [exact Hlen|].
  destruct (Hrows 1%nat _ eq_refl) as (r & Hr & Hrow).
  cbn in Hr. injection Hr as <-. exact Hrow.
Defined.

Section MonitorFacts.

Variable os_system_status : nat -> string -> Z.
Variable os_system_output : nat -> string -> string.
Variable datetime : Type.
Variable datetime_now : nat -> datetime.
Variable datetime_str : datetime -> string.
Variable tabulate : list row -> list string -> string.

Local Abbreviation ping' := (ping os_system_status os_system_output).
Local Abbreviation save' := (save datetime datetime_str tabulate).
Local Abbreviation artifact' := (artifact datetime datetime_str tabulate).
Local Abbreviation monitor_nodes' :=
  (monitor_nodes os_system_status os_system_output datetime datetime_now
     datetime_str tabulate).
Local Abbreviation cycle' :=
  (cycle os_system_status os_system_output datetime datetime_now
     datetime_str tabulate).
Local Abbreviation monitor' :=
  (monitor os_system_status os_system_output datetime datetime_now
     datetime_str tabulate).

Lemma ping_node (n : Node) (w : World) :
  fst (ping' n w)
  = record_outcome n (os_system_status (length (shell_log w)) (ping_command n)).
Proof. reflexivity. Qed.

Lemma ping_shell_log (n : Node) (w : World) :
  shell_log (snd (ping' n w)) = shell_log w ++ [ping_command n].
Proof. reflexivity. Qed.

(** C8. One probe moves the statistics by exactly one of two steps: exit
    status 0 adds one success and sets the last outcome, any other
    status adds one failure and clears it. Neither count ever
    decreases, their sum grows by one, and nothing else changes. *)
Theorem ping_transition (n : Node) (w : World) :
  let response := os_system_status (length (shell_log w)) (ping_command n) in
  let n' := fst (ping' n w) in
  (response = 0 ->
     successful_pings n' = successful_pings n + 1 /\
     failed_pings n' = failed_pings n /\
     last_ping_successful n' = true) /\
  (response <> 0 ->
     successful_pings n' = successful_pings n /\
     failed_pings n' = failed_pings n + 1 /\
     last_ping_successful n' = false) /\
  successful_pings n <= successful_pings n' /\
  failed_pings n <= failed_pings n' /\
  successful_pings n' + failed_pings n'
  = successful_pings n + failed_pings n + 1 /\
  same_identity n n'.
Proof.
  cbv zeta. rewrite ping_node.
  set (response := os_system_status _ _).
  unfold record_outcome.
  destruct (response =? 0) eqn:Hr;
    [apply Z.eqb_eq in Hr | apply Z.eqb_neq in Hr]; cbn;
    repeat split; intros; try lia; try reflexivity; contradiction.
Qed.

(** C6. Persisting overwrites the artifact with a text determined by
    the rows, the headers and the two timestamps alone: whatever the
    file held before, it holds that text afterwards, and persisting a
    second time with the same Table and timestamps leaves every file as
    the first time did. *)
Theorem save_idempotent (t : Table) (start end_ : datetime) (w : World) :
  save' t start end_ (save' t start end_ w) = save' t start end_ w /\
  read_file "output_table.txt" (save' t start end_ w) = artifact' t start end_ /\
  read_file "output_table.txt" (save' t start end_ (save' t start end_ w))
  = read_file "output_table.txt" (save' t start end_ w).
Proof.
  assert (H : save' t start end_ (save' t start end_ w) = save' t start end_ w).
  { unfold save, write_file. cbn [files shell_log clock_reads].
    now rewrite insert_insert_eq. }
  split; [exact H|]. split; [|now rewrite H].
  unfold read_file, save, write_file. cbn [files].
  now rewrite lookup_insert_eq.
Qed.

(** What a pass over the Nodes from position [i0] does. *)
Lemma monitor_nodes_spec (start : datetime) (nodes : list Node) :
  forall (i0 : nat) (table : Table) (w : World),
  Forall counts_ok nodes ->
  (i0 + length nodes <= length (rows table))%nat ->
  exists nodes' table' w',
    monitor_nodes' nodes (Z.of_nat i0) table start w = Ok (nodes', table', w') /\
    Forall2 same_identity nodes nodes' /\
    Forall counts_ok nodes' /\
    length (rows table') = length (rows table) /\
    shell_log w' = shell_log w ++ probes nodes /\
    (forall j : nat, (j < i0)%nat -> rows table' !! j = rows table !! j) /\
    (forall (j : nat) node, nodes !! j = Some node -> ip_address node = None ->
       nodes' !! j = Some node /\
       rows table' !! (i0 + j)%nat = rows table !! (i0 + j)%nat) /\
    (forall (j : nat) node', nodes' !! j = Some node' ->
       is_Some (ip_address node') ->
       exists r, row_of node' = Ok r /\ rows table' !! (i0 + j)%nat = Some r).
Proof.
  induction nodes as [ | node nodes IH ]; intros i0 table w Hok Hlen.
  - exists [], table, w. cbn [monitor_nodes probes]. rewrite app_nil_r.
    split; [reflexivity|]. split; [constructor|]. split; [constructor|].
    split; [reflexivity|]. split; [reflexivity|]. split; [reflexivity|].
    split; intros j node' H; rewrite lookup_nil in H; discriminate.
  - apply Forall_cons in Hok as [Hnode Hok]. cbn [length] in Hlen.
    cbn [monitor_nodes probes].
    replace (Z.of_nat i0 + 1) with (Z.of_nat (S i0)) by lia.
    destruct (ip_address node) as [a | ] eqn:Hip.
    + set (node1 := fst (ping' node w)). set (w1 := snd (ping' node w)).
      replace (ping' node w) with (node1, w1)
        by (unfold node1, w1; now destruct (ping' node w)).
      assert (Hid1 : same_identity node node1)
        by (unfold node1; rewrite ping_node; apply record_outcome_identity).
      assert (Hok1 : counts_ok node1)
        by (unfold node1; rewrite ping_node; now apply record_outcome_counts_ok).
      destruct (update_row_ok table node1 i0 Hok1 ltac:(lia)) as (r & Hr & Hup).
      rewrite Hup. cbn [bind now].
      set (table1 := {| headers := headers table; rows := <[i0 := r]> (rows table) |}).
      set (w3 := save' table1 start _ _).
      assert (Hlen1 : (S i0 + length nodes <= length (rows table1))%nat)
        by (cbn [rows table1]; rewrite length_insert; lia).
      destruct (IH (S i0) table1 w3 Hok Hlen1)
        as (nodes' & table' & w' & Hrun & Hid & Hok' & Hlen' & Hlog & Hlow & Habs & Hcur).
      rewrite Hrun. cbn [bind].
      exists (node1 :: nodes'), table', w'.
      split; [reflexivity|]. split; [now constructor|]. split; [now constructor|].
      split; [rewrite Hlen'; cbn [rows table1]; apply length_insert|].
      split.
      { rewrite Hlog. unfold w3, save, write_file. cbn [shell_log].
        unfold w1. rewrite ping_shell_log, <- app_assoc. reflexivity. }
      split.
      { intros j Hj. rewrite Hlow by lia. cbn [rows table1].
        apply list_lookup_insert_ne. lia. }
      split.
      { intros [ | j ] node0 Hj Hnone; cbn in Hj.
        - injection Hj as <-. congruence.
        - destruct (Habs j node0 Hj Hnone) as [H1 H2]. split; [exact H1|].
          replace (i0 + S j)%nat with (S i0 + j)%nat by lia.
          rewrite H2. cbn [rows table1]. apply list_lookup_insert_ne. lia. }
      { intros [ | j ] node0 Hj Hsome; cbn in Hj.
        - injection Hj as <-. exists r. split; [exact Hr|].
          rewrite Nat.add_0_r, Hlow by lia. cbn [rows table1].
          apply list_lookup_insert_eq. lia.
        - replace (i0 + S j)%nat with (S i0 + j)%nat by lia.
          now apply Hcur. }
    + destruct (IH (S i0) table w Hok ltac:(lia))
        as (nodes' & table' & w' & Hrun & Hid & Hok' & Hlen' & Hlog & Hlow & Habs & Hcur).
      rewrite Hrun. cbn [bind].
      exists (node :: nodes'), table', w'.
      split; [reflexivity|].
      split; [constructor; [apply same_identity_refl | exact Hid]|].
      split; [now constructor|]. split; [exact Hlen'|]. split; [exact Hlog|].
      split; [intros j Hj; apply Hlow; lia|].
      split.
      { intros [ | j ] node0 Hj Hnone; cbn in Hj.
        - injection Hj as <-. split; [reflexivity|].
          rewrite Nat.add_0_r. apply Hlow. lia.
        - destruct (Habs j node0 Hj Hnone) as [H1 H2]. split; [exact H1|].
          replace (i0 + S j)%nat with (S i0 + j)%nat by lia. exact H2. }
      { intros [ | j ] node0 Hj Hsome; cbn in Hj.
        - injection Hj as <-. rewrite Hip in Hsome. destruct Hsome; discriminate.
        - replace (i0 + S j)%nat with (S i0 + j)%nat by lia.
          now apply Hcur. }
Qed.

(** What the first [n] passes of the loop do. *)
Lemma monitor_spec (start : datetime) (n : nat) :
  forall (nodes : list Node) (table : Table) (w : World),
  Forall counts_ok nodes ->
  length (rows table) = length nodes ->
  exists nodes' table' w',
    monitor' n nodes table start w = Ok (nodes', table', w') /\
    Forall2 same_identity nodes nodes' /\
    Forall counts_ok nodes' /\
    length (rows table') = length (rows table) /\
    shell_log w' = shell_log w ++ concat (replicate n (probes nodes)) /\
    (forall (j : nat) node, nodes !! j = Some node -> ip_address node = None ->
       nodes' !! j = Some node /\ rows table' !! j = rows table !! j) /\
    (n <> O ->
     forall (j : nat) node', nodes' !! j = Some node' ->
       is_Some (ip_address node') ->
       exists r, row_of node' = Ok r /\ rows table' !! j = Some r).
Proof.
  induction n as [ | n IH ]; intros nodes table w Hok Hlen.
  - exists nodes, table, w. cbn [monitor replicate concat]. rewrite app_nil_r.
    split; [reflexivity|].
    split; [apply Forall2_same_length_lookup_2; [reflexivity|];
            intros i x y Hx Hy; rewrite Hx in Hy; injection Hy as <-;
            apply same_identity_refl|].
    split; [exact Hok|]. split; [reflexivity|]. split; [reflexivity|].
    split; [intros j node Hj _; split; [exact Hj | reflexivity]|].
    intros H. contradiction.
  - cbn [monitor]. unfold cycle.
    destruct (monitor_nodes_spec start nodes 0 table w Hok ltac:(lia))
      as (nodes1 & table1 & w1 & Hrun & Hid1 & Hok1 & Hlen1 & Hlog1 & _ & Habs1 & Hcur1).
    change (Z.of_nat 0) with 0 in Hrun. rewrite Hrun. cbn [bind].
    assert (Hlen1' : length (rows table1) = length nodes1).
    { rewrite Hlen1, Hlen. eapply Forall2_length; exact Hid1. }
    destruct (IH nodes1 table1 w1 Hok1 Hlen1')
      as (nodes' & table' & w' & Hmon & Hid & Hok' & Hlen' & Hlog & Habs & Hcur).
    exists nodes', table', w'.
    split; [exact Hmon|].
    split.
    { eapply Forall2_trans; [|exact Hid1|exact Hid].
      intros x y z. apply same_identity_trans. }
    split; [exact Hok'|]. split; [congruence|].
    split.
    { rewrite Hlog, Hlog1, (probes_same_identity _ _ Hid1), <- app_assoc.
      reflexivity. }
    split.
    { intros j node Hj Hnone.
      destruct (Habs1 j node Hj Hnone) as [H1 H2].
      destruct (Habs j node H1 Hnone) as [H3 H4].
      split; [exact H3|]. rewrite H4. exact H2. }
    intros _. destruct n as [ | n ].
    + cbn [monitor] in Hmon. injection Hmon as <- <- <-. exact Hcur1.
    + apply Hcur. discriminate.
Qed.

(** C7. Through any number of passes of the monitor loop a Node without
    a network address is skipped entirely: the shell commands issued are
    the probes of the Nodes that have an address and no others, the
    Node keeps its counters and its last outcome (it is the same Node
    afterwards), and its row of the Table is the row it had before. *)
Theorem absent_nodes_skipped (start : datetime) (n : nat)
    (nodes : list Node) (table : Table) (w : World) :
  Forall counts_ok nodes ->
  length (rows table) = length nodes ->
  exists nodes' table' w',
    monitor' n nodes table start w = Ok (nodes', table', w') /\
    shell_log w' = shell_log w ++ concat (replicate n (probes nodes)) /\
    forall (i : nat) node, nodes !! i = Some node -> ip_address node = None ->
      nodes' !! i = Some node /\
      rows table' !! i = rows table !! i.
Proof.
  intros Hok Hlen.
  destruct (monitor_spec start n nodes table w Hok Hlen)
    as (nodes' & table' & w' & Hmon & _ & _ & _ & Hlog & Habs & _).
  exists nodes', table', w'. split; [exact Hmon|]. split; [exact Hlog|].
  exact Habs.
Qed.

End MonitorFacts.

Lemma ping_transition_witness :
  let n := Node_init "0050.569f.0c60" (Some "10.25.5.37") "Po6" "4" in
  let w := mkWorld ∅ [] 0 in
  let ok := fst (ping (fun _ _ => 0) (fun _ _ => "") n w) in
  let ko := fst (ping (fun _ _ => 1) (fun _ _ => "") n w) in
  (successful_pings ok = 1 /\ failed_pings ok = 0 /\ last_ping_successful ok = true) /\
  (successful_pings ko = 0 /\ failed_pings ko = 1 /\ last_ping_successful ko = false).
Proof.
  cbv zeta. split.
  - apply (ping_transition (fun _ _ => 0) (fun _ _ => "")
             (Node_init "0050.569f.0c60" (Some "10.25.5.37") "Po6" "4")
             (mkWorld ∅ [] 0)).
    reflexivity.
  - apply (ping_transition (fun _ _ => 1) (fun _ _ => "")
             (Node_init "0050.569f.0c60" (Some "10.25.5.37") "Po6" "4")
             (mkWorld ∅ [] 0)).
    discriminate.
Defined.

Lemma absent_nodes_skipped_witness :
  let a := Node_init "0050.569f.0c60" (Some "10.25.5.37") "Po6" "4" in
  let b := Node_init "0050.569f.0c61" None "Po7" "4" in
  let seeded :=
    {| headers := headers Table_init;
       rows := [[Some "Po6"; Some "4"; Some "0050.569f.0c60"; Some "10.25.5.37";
                 None; Some "0%"];
                [Some "Po7"; Some "4"; Some "0050.569f.0c61"; None; None;
                 Some "0%"]] |} in
  pre_populate_table Table_init [a; b] = Ok seeded /\
  Forall counts_ok [a; b] /\
  length (rows seeded) = length [a; b] /\
  exists nodes' table' w',
    monitor (fun i _ => Z.of_nat i) (fun _ _ => "") nat (fun i => i)
      (fun _ => "") (fun _ _ => "") 2 [a; b] seeded 0%nat (mkWorld ∅ [] 0)
    = Ok (nodes', table', w') /\
    shell_log w'
    = ["ping -n 1 -w 2 10.25.5.37 >> output.txt";
       "ping -n 1 -w 2 10.25.5.37 >> output.txt"] /\
    nodes' !! 1%nat = Some b /\
    rows table' !! 1%nat = rows seeded !! 1%nat.
Proof.
  cbv zeta. split; [reflexivity|].
  assert (Hok : Forall counts_ok
                  [Node_init "0050.569f.0c60" (Some "10.25.5.37") "Po6" "4";
                   Node_init "0050.569f.0c61" None "Po7" "4"]).
  { repeat constructor; cbn; lia. }
  split; [exact Hok|]. split; [reflexivity|].
  destruct (absent_nodes_skipped (fun i _ => Z.of_nat i) (fun _ _ => "") nat
              (fun i => i) (fun _ => "") (fun _ _ => "") 0%nat 2 _
              {| headers := headers Table_init;
                 rows := [[Some "Po6"; Some "4"; Some "0050.569f.0c60";
                           Some "10.25.5.37"; None; Some "0%"];
                          [Some "Po7"; Some "4"; Some "0050.569f.0c61"; None;
                           None; Some "0%"]] |}
              (mkWorld ∅ [] 0) Hok eq_refl)
    as (nodes' & table' & w' & Hmon & Hlog & Habs).
  exists nodes', table', w'. split; [exact Hmon|]. split; [exact Hlog|].
  exact (Habs 1%nat _ eq_refl eq_refl).
Defined.

(** ** Discovery: the two patterns *)

Module PatternFacts.
Import Re ReFacts.

Lemma run_bol items opened closed input :
  run (Bol :: items) 0 opened closed input = run items 0 opened closed input.
Proof. reflexivity. Qed.

Lemma run_open name items pos opened closed input :
  run (Open name :: items) pos opened closed input
  = run items pos ((name, []) :: opened) closed input.
Proof. reflexivity. Qed.

Lemma run_close items pos name text opened closed input :
  run (Close :: items) pos ((name, text) :: opened) closed input
  = run items pos opened ((name, string_of_list_ascii text) :: closed) input.
Proof. reflexivity. Qed.

Lemma run_nil pos opened closed input : run [] pos opened closed input = Some closed.
Proof. reflexivity. Qed.

Lemma one_char (a : ascii) (cs : list ascii) :
  forallb (lit a) cs = true -> (1 <= length cs)%nat -> (length cs <= 1)%nat ->
  cs = [a].
Proof.
  destruct cs as [ | c [ | c' cs ] ]; cbn [length forallb]; try lia.
  intros H _ _. rewrite andb_true_r in H. apply Ascii.eqb_eq in H. now subst.
Qed.

Lemma one_of (cls : ascii -> bool) (cs : list ascii) :
  forallb cls cs = true -> (1 <= length cs)%nat -> (length cs <= 1)%nat ->
  exists c, cs = [c] /\ cls c = true.
Proof.
  destruct cs as [ | c [ | c' cs ] ]; cbn [length forallb]; try lia.
  intros H _ _. rewrite andb_true_r in H. now exists c.
Qed.

(** The classes of the two patterns exclude one another where one
    repetition is followed by the next. *)
Lemma space_not_digit (c : ascii) : space c = true -> digit c = false.
Proof. destruct c as [[] [] [] [] [] [] [] []]; vm_compute; congruence. Qed.

Lemma digit_not_space (c : ascii) : digit c = true -> space c = false.
Proof. destruct c as [[] [] [] [] [] [] [] []]; vm_compute; congruence. Qed.

Lemma stops_after (cls cls' : ascii -> bool) (cs rest : list ascii) :
  (forall c, cls' c = true -> cls c = false) ->
  forallb cls' cs = true -> (1 <= length cs)%nat ->
  stops cls (cs ++ rest) = true.
Proof.
  intros Hex Hcs Hlen. destruct cs as [ | c cs ]; cbn [length] in Hlen; [lia|].
  cbn [forallb] in Hcs. apply andb_prop in Hcs as [Hc _].
  cbn. now rewrite (Hex c Hc).
Qed.

Lemma length_string_of_list (cs : list ascii) :
  String.length (string_of_list_ascii cs) = length cs.
Proof. induction cs as [ | c cs IH ]; cbn; [reflexivity | now rewrite IH]. Qed.

Lemma length_list_of_string (s : string) :
  length (list_ascii_of_string s) = String.length s.
Proof. induction s as [ | c s IH ]; cbn; [reflexivity | now rewrite IH]. Qed.

Lemma mac_char_not_space (c : ascii) : mac_char c = true -> space c = false.
Proof. destruct c as [[] [] [] [] [] [] [] []]; vm_compute; congruence. Qed.

(** One step of reading a successful run backwards. *)
Ltac invert_run H :=
  let cs := fresh "cs" in
  let Hall := fresh "Hall" in
  let Hlo := fresh "Hlo" in
  let Hhi := fresh "Hhi" in
  first
    [ rewrite run_bol in H
    | rewrite run_open in H
    | rewrite run_close in H
    | apply run_chars_inv in H as (cs & ? & -> & Hall & Hlo & Hhi & H);
      cbn [feed map fst snd app] in H ].

(** *** The address-table pattern, on lists of characters *)

Lemma mac_line_inv (input : list ascii) (closed : list (string * string)) :
  run mac_line 0 [] [] input = Some closed ->
  exists w vl sp mac rest,
    input = "*"%char :: w :: vl ++ sp ++ mac ++ rest /\
    space w = true /\
    (1 <= length vl)%nat /\ forallb digit vl = true /\
    (1 <= length sp)%nat /\ forallb space sp = true /\
    length mac = 14%nat /\ forallb mac_char mac = true /\
    closed = [("mac_address", string_of_list_ascii mac);
              ("vlan", string_of_list_ascii vl)].
Proof.
  intros H. unfold mac_line, one, plus, times in H.
  do 10 invert_run H. rewrite run_nil in H. injection H as <-.
  apply one_char in Hall; [subst cs | assumption..].
  apply one_of in Hall0 as (w & -> & Hw); [|assumption..].
  exists w, cs1, cs2, cs3. eexists.
  split; [reflexivity|]. repeat split; try assumption; lia.
Qed.

Lemma mac_line_intro (w : ascii) (vl sp mac rest : list ascii) :
  space w = true ->
  (1 <= length vl)%nat -> forallb digit vl = true ->
  (1 <= length sp)%nat -> forallb space sp = true ->
  length mac = 14%nat -> forallb mac_char mac = true ->
  run mac_line 0 [] [] ("*"%char :: w :: vl ++ sp ++ mac ++ rest)
  = Some [("mac_address", string_of_list_ascii mac);
          ("vlan", string_of_list_ascii vl)].
Proof.
  intros Hw Hvl1 Hvl Hsp1 Hsp Hmac1 Hmac.
  unfold mac_line, one, plus, times. rewrite run_bol.
  apply (run_chars_greedy _ _ _ _ _ _ _ ["*"%char]);
    [reflexivity | cbn; lia | left; reflexivity |].
  apply (run_chars_greedy _ _ _ _ _ _ _ [w]);
    [cbn; now rewrite Hw | cbn; lia | left; reflexivity |].
  rewrite run_open.
  apply run_chars_greedy;
    [exact Hvl | exact Hvl1
     | now apply (stops_after digit space); [apply space_not_digit | |] |].
  cbn [feed map fst snd app]. rewrite run_close.
  apply run_chars_greedy;
    [exact Hsp | exact Hsp1 | |].
  { apply (stops_after space mac_char); [apply mac_char_not_space | exact Hmac | lia]. }
  rewrite run_open.
  apply run_chars_greedy;
    [exact Hmac | lia | left; congruence |].
  cbn [feed map fst snd app]. rewrite run_close. reflexivity.
Qed.

(** *** The address-resolution pattern, on lists of characters *)

Lemma arp_line_inv (input : list ascii) (closed : list (string * string)) :
  run arp_line 0 [] [] input = Some closed ->
  exists a b c d sp1 h m s sp2 rest,
    input = (a ++ "."%char :: b ++ "."%char :: c ++ "."%char :: d)
              ++ sp1 ++ (h ++ ":"%char :: m ++ ":"%char :: s) ++ sp2 ++ rest /\
    ((1 <= length a <= 3)%nat /\ forallb digit a = true) /\
    ((1 <= length b <= 3)%nat /\ forallb digit b = true) /\
    ((1 <= length c <= 3)%nat /\ forallb digit c = true) /\
    ((1 <= length d <= 3)%nat /\ forallb digit d = true) /\
    ((1 <= length sp1)%nat /\ forallb space sp1 = true) /\
    (length h = 2%nat /\ forallb digit h = true) /\
    (length m = 2%nat /\ forallb digit m = true) /\
    (length s = 2%nat /\ forallb digit s = true) /\
    ((1 <= length sp2)%nat /\ forallb space sp2 = true) /\
    closed = [("age", string_of_list_ascii (h ++ ":"%char :: m ++ ":"%char :: s));
              ("ip_address",
               string_of_list_ascii
                 (a ++ "."%char :: b ++ "."%char :: c ++ "."%char :: d))].
Proof.
  intros H. unfold arp_line, one, plus, times, between in H.
  do 19 invert_run H.
  match type of H with run _ _ _ _ ?r = _ => rename r into rest end.
  rewrite run_nil in H. injection H as <-.
  apply one_char in Hall0; [subst cs0 | assumption..].
  apply one_char in Hall2; [subst cs2 | assumption..].
  apply one_char in Hall4; [subst cs4 | assumption..].
  apply one_char in Hall8; [subst cs8 | assumption..].
  apply one_char in Hall10; [subst cs10 | assumption..].
  exists cs, cs1, cs3, cs5, cs6, cs7, cs9, cs11, cs12, rest.
  split; [|repeat split; try assumption; try lia];
    repeat (rewrite <- app_assoc || rewrite <- app_comm_cons);
    cbn [app]; reflexivity.
Qed.

Lemma arp_line_intro (a b c d sp1 h m s sp2 rest : list ascii) :
  (1 <= length a <= 3)%nat /\ forallb digit a = true ->
  (1 <= length b <= 3)%nat /\ forallb digit b = true ->
  (1 <= length c <= 3)%nat /\ forallb digit c = true ->
  (1 <= length d <= 3)%nat /\ forallb digit d = true ->
  (1 <= length sp1)%nat /\ forallb space sp1 = true ->
  length h = 2%nat /\ forallb digit h = true ->
  length m = 2%nat /\ forallb digit m = true ->
  length s = 2%nat /\ forallb digit s = true ->
  (1 <= length sp2)%nat /\ forallb space sp2 = true ->
  run arp_line 0 [] []
    ((a ++ "."%char :: b ++ "."%char :: c ++ "."%char :: d)
       ++ sp1 ++ (h ++ ":"%char :: m ++ ":"%char :: s) ++ sp2 ++ rest)
  = Some [("age", string_of_list_ascii (h ++ ":"%char :: m ++ ":"%char :: s));
          ("ip_address",
           string_of_list_ascii
             (a ++ "."%char :: b ++ "."%char :: c ++ "."%char :: d))].
Proof.
  intros [Ha1 Ha] [Hb1 Hb] [Hc1 Hc] [Hd1 Hd] [Hsp1 Hsp] [Hh1 Hh] [Hm1 Hm]
    [Hs1 Hs] [Hsp2 Hsp'].
  repeat (rewrite <- app_assoc || rewrite <- app_comm_cons).
  unfold arp_line, one, plus, times, between. rewrite run_bol, run_open.
  (* the four octets and the three points *)
  apply run_chars_greedy; [exact Ha | lia | right; split; [lia | reflexivity] |].
  apply (run_chars_greedy _ _ _ _ _ _ _ ["."%char]);
    [reflexivity | cbn; lia | left; reflexivity |].
  apply run_chars_greedy; [exact Hb | lia | right; split; [lia | reflexivity] |].
  apply (run_chars_greedy _ _ _ _ _ _ _ ["."%char]);
    [reflexivity | cbn; lia | left; reflexivity |].
  apply run_chars_greedy; [exact Hc | lia | right; split; [lia | reflexivity] |].
  apply (run_chars_greedy _ _ _ _ _ _ _ ["."%char]);
    [reflexivity | cbn; lia | left; reflexivity |].
  apply run_chars_greedy; [exact Hd | lia | right; split; [lia|] |].
  { apply (stops_after digit space); [apply space_not_digit | exact Hsp | exact Hsp1]. }
  cbn [feed map fst snd app]. rewrite run_close.
  (* the blanks and the age *)
  apply run_chars_greedy; [exact Hsp | exact Hsp1 | |].
  { apply (stops_after space digit); [apply digit_not_space | exact Hh | lia]. }
  rewrite run_open.
  apply run_chars_greedy; [exact Hh | lia | left; lia |].
  apply (run_chars_greedy _ _ _ _ _ _ _ [":"%char]);
    [reflexivity | cbn; lia | left; reflexivity |].
  apply run_chars_greedy; [exact Hm | lia | left; lia |].
  apply (run_chars_greedy _ _ _ _ _ _ _ [":"%char]);
    [reflexivity | cbn; lia | left; reflexivity |].
  apply run_chars_greedy; [exact Hs | lia | left; lia |].
  cbn [feed map fst snd app]. rewrite run_close.
  rewrite run_chars_last by assumption.
  repeat (rewrite <- app_assoc || rewrite <- app_comm_cons). cbn [app].
  reflexivity.
Qed.

(** *** The two patterns, on strings *)

Lemma all_in_of_list (cls : ascii -> bool) (cs : list ascii) :
  all_in cls (string_of_list_ascii cs) = forallb cls cs.
Proof. unfold all_in. now rewrite list_ascii_of_string_of_list_ascii. Qed.

Lemma string_of_list_cons (c : ascii) (cs : list ascii) :
  string_of_list_ascii (c :: cs) = String c (string_of_list_ascii cs).
Proof. reflexivity. Qed.

Lemma list_of_string_cons (c : ascii) (s : string) :
  list_ascii_of_string (String c s) = c :: list_ascii_of_string s.
Proof. reflexivity. Qed.

Lemma string_app_nil (s : string) : "" +:+ s = s.
Proof. reflexivity. Qed.

(** Lists of characters to strings, and strings to lists. *)
Ltac to_strings :=
  repeat (rewrite string_of_list_app || rewrite string_of_list_cons
          || rewrite string_of_list_ascii_of_string).
Ltac flatten_strings :=
  repeat (rewrite string_app_assoc || rewrite string_app_cons
          || rewrite string_app_nil).
Ltac to_lists :=
  repeat (rewrite list_of_string_app || rewrite list_of_string_cons
          || rewrite string_app_cons || rewrite string_app_nil).


Lemma mac_groups_lookup (vlan mac : string) :
  mac_groups vlan mac !! "vlan" = Some vlan /\
  mac_groups vlan mac !! "mac_address" = Some mac.
Proof.
  unfold mac_groups. cbn. split.
  - rewrite lookup_insert_ne by discriminate. apply lookup_insert_eq.
  - apply lookup_insert_eq.
Qed.

Lemma arp_groups_lookup (age ip : string) :
  arp_groups age ip !! "ip_address" = Some ip.
Proof.
  unfold arp_groups. cbn. rewrite lookup_insert_ne by discriminate. apply lookup_insert_eq.
Qed.

Lemma match_mac_line_inv (line : string) (groups : gmap string string) :
  match_groupdict mac_line line = Some groups ->
  exists vlan mac,
    mac_entry line vlan mac /\ groups = mac_groups vlan mac.
Proof.
  unfold match_groupdict.
  destruct (run mac_line 0 [] [] (list_ascii_of_string line)) as [closed | ] eqn:Hrun;
    [|discriminate].
  intros [= <-].
  apply mac_line_inv in Hrun
    as (w & vl & sp & mac & rest & Hin & Hw & Hvl1 & Hvl & Hsp1 & Hsp & Hmac1 & Hmac & ->).
  exists (string_of_list_ascii vl), (string_of_list_ascii mac).
  split; [|reflexivity].
  exists w, (string_of_list_ascii sp), (string_of_list_ascii rest).
  rewrite !length_string_of_list, !all_in_of_list.
  repeat split; try assumption.
  rewrite <- (string_of_list_ascii_of_string line), Hin.
  to_strings. reflexivity.
Qed.

Lemma match_mac_line_intro (line vlan mac : string) :
  mac_entry line vlan mac ->
  match_groupdict mac_line line = Some (mac_groups vlan mac).
Proof.
  intros (w & sp & rest & -> & Hw & Hvl1 & Hvl & Hsp1 & Hsp & Hmac1 & Hmac).
  unfold match_groupdict. to_lists.
  rewrite (mac_line_intro w (list_ascii_of_string vlan) (list_ascii_of_string sp)
             (list_ascii_of_string mac) (list_ascii_of_string rest));
    rewrite ?length_list_of_string; try assumption.
  now rewrite !string_of_list_ascii_of_string.
Qed.

Lemma match_arp_line_inv (output : string) (groups : gmap string string) :
  match_groupdict arp_line output = Some groups ->
  exists age ip,
    arp_entry output ip /\ groups = arp_groups age ip.
Proof.
  unfold match_groupdict.
  destruct (run arp_line 0 [] [] (list_ascii_of_string output)) as [closed | ] eqn:Hrun;
    [|discriminate].
  intros [= <-].
  apply arp_line_inv in Hrun
    as (a & b & c & d & sp1 & h & m & s & sp2 & rest & Hin
        & Ha & Hb & Hc & Hd & Hsp1 & Hh & Hm & Hs & Hsp2 & ->).
  eexists _, _. split; [|reflexivity].
  exists (string_of_list_ascii a), (string_of_list_ascii b),
    (string_of_list_ascii c), (string_of_list_ascii d),
    (string_of_list_ascii sp1), (string_of_list_ascii h),
    (string_of_list_ascii m), (string_of_list_ascii s),
    (string_of_list_ascii sp2), (string_of_list_ascii rest).
  unfold octet, two_digits, blanks.
  rewrite !length_string_of_list, !all_in_of_list.
  split; [to_strings; flatten_strings; reflexivity|].
  split; [|repeat split; tauto].
  rewrite <- (string_of_list_ascii_of_string output), Hin.
  to_strings. flatten_strings. reflexivity.
Qed.

Lemma match_arp_line_intro (output ip : string) :
  arp_entry output ip ->
  exists age, match_groupdict arp_line output = Some (arp_groups age ip).
Proof.
  intros (a & b & c & d & sp1 & h & m & s & sp2 & rest & -> & ->
          & Ha & Hb & Hc & Hd & Hsp1 & Hh & Hm & Hs & Hsp2).
  unfold octet, two_digits, blanks, all_in in *.
  rewrite <- !length_list_of_string in *.
  eexists. unfold match_groupdict.
  replace (list_ascii_of_string _) with
    ((list_ascii_of_string a ++ "."%char :: list_ascii_of_string b
        ++ "."%char :: list_ascii_of_string c ++ "."%char :: list_ascii_of_string d)
       ++ list_ascii_of_string sp1
       ++ (list_ascii_of_string h ++ ":"%char :: list_ascii_of_string m
             ++ ":"%char :: list_ascii_of_string s)
       ++ list_ascii_of_string sp2 ++ list_ascii_of_string rest).
  - rewrite arp_line_intro by assumption.
    to_strings. flatten_strings. reflexivity.
  - to_lists. cbn [list_ascii_of_string].
    repeat (rewrite <- app_assoc || rewrite <- app_comm_cons). reflexivity.
Qed.

End PatternFacts.

(** ** Discovery: parsing the address table *)

Lemma collect_entry (line vlan mac : string) (lines : list string) :
  mac_entry line vlan mac ->
  collect_vlan_and_mac (line :: lines)
  = (rest <- collect_vlan_and_mac lines ;; Ok ((vlan, mac) :: rest)).
Proof.
  intros H. cbn [collect_vlan_and_mac].
  rewrite (PatternFacts.match_mac_line_intro line vlan mac H).
  destruct (PatternFacts.mac_groups_lookup vlan mac) as [Hv Hm].
  unfold Re.getitem. rewrite Hv, Hm. reflexivity.
Qed.

Lemma collect_no_entry (line : string) (lines : list string) :
  (forall vlan mac, ~ mac_entry line vlan mac) ->
  collect_vlan_and_mac (line :: lines) = collect_vlan_and_mac lines.
Proof.
  intros H. cbn [collect_vlan_and_mac].
  destruct (Re.match_groupdict mac_line line) as [groups | ] eqn:Hm; [|reflexivity].
  apply PatternFacts.match_mac_line_inv in Hm as (vlan & mac & Hentry & _).
  now destruct (H vlan mac).
Qed.

Lemma mac_entry_decided (line : string) :
  (exists vlan mac, mac_entry line vlan mac) \/
  (forall vlan mac, ~ mac_entry line vlan mac).
Proof.
  destruct (Re.match_groupdict mac_line line) as [groups | ] eqn:Hm.
  - apply PatternFacts.match_mac_line_inv in Hm as (vlan & mac & Hentry & _).
    left. now exists vlan, mac.
  - right. intros vlan mac H.
    apply PatternFacts.match_mac_line_intro in H. congruence.
Qed.

Lemma mac_entry_functional (line v1 m1 v2 m2 : string) :
  mac_entry line v1 m1 -> mac_entry line v2 m2 -> v1 = v2 /\ m1 = m2.
Proof.
  intros H1 H2.
  apply PatternFacts.match_mac_line_intro in H1, H2.
  assert (Heq : mac_groups v1 m1 = mac_groups v2 m2)
    by congruence.
  destruct (PatternFacts.mac_groups_lookup v1 m1) as [Hv1 Hm1].
  destruct (PatternFacts.mac_groups_lookup v2 m2) as [Hv2 Hm2].
  rewrite Heq in Hv1, Hm1. split; congruence.
Qed.

(** The pairs extracted from the lines of an output are exactly those of
    the lines that are entries, in order; parsing never raises. *)
Lemma collect_vlan_and_mac_spec (lines : list string) :
  exists pairs, collect_vlan_and_mac lines = Ok pairs /\
    forall vlan mac, (vlan, mac) ∈ pairs <->
      exists line, line ∈ lines /\ mac_entry line vlan mac.
Proof.
  induction lines as [ | line lines (pairs & Hpairs & Hiff) ].
  - exists []. split; [reflexivity|]. intros vlan mac. split.
    + intros H. inversion H.
    + intros (line & H & _). inversion H.
  - destruct (mac_entry_decided line) as [(v & m & Hentry) | Hno].
    + exists ((v, m) :: pairs). rewrite (collect_entry line v m lines Hentry), Hpairs.
      split; [reflexivity|]. intros vlan mac. split.
      * intros [[= -> ->] | (l & Hl & Hs)%Hiff]%elem_of_cons.
        -- exists line. split; [apply elem_of_cons; now left | exact Hentry].
        -- exists l. split; [apply elem_of_cons; now right | exact Hs].
      * intros (l & [-> | Hl]%elem_of_cons & Hs); apply elem_of_cons.
        -- left. destruct (mac_entry_functional _ _ _ _ _ Hs Hentry) as [-> ->].
           reflexivity.
        -- right. apply Hiff. now exists l.
    + exists pairs. rewrite (collect_no_entry line lines Hno).
      split; [exact Hpairs|]. intros vlan mac. split.
      * intros (l & Hl & Hs)%Hiff. exists l.
        split; [apply elem_of_cons; now right | exact Hs].
      * intros (l & [-> | Hl]%elem_of_cons & Hs).
        -- now destruct (Hno vlan mac).
        -- apply Hiff. now exists l.
Qed.

(** C3, as the code has it. The entry of the address table that the
    code documents, with one blank after the marker, yields the pair
    (VLAN "4", MAC "0050.569f.0c60"). A line matches only when it is the
    marker [*], one blank, the digits of a VLAN, blanks and fourteen
    characters of dotted lowercase hexadecimal; every such line yields
    its pair, and a line that does not begin with the marker yields
    none. *)
Theorem mac_table_parsing :
  (forall (send_command : string -> string) (interface : string),
     send_command ("show mac address-table interface " +:+ interface)
     = "* 4        0050.569f.0c60    dynamic     ~~~      F    F  Po6" ->
     get_vlan_and_mac_addresses send_command interface
     = Ok [("4", "0050.569f.0c60")]) /\
  (forall (line : string) (groups : gmap string string),
     Re.match_groupdict mac_line line = Some groups ->
     exists vlan mac,
       mac_entry line vlan mac /\
       groups !! "vlan" = Some vlan /\ groups !! "mac_address" = Some mac) /\
  (forall line vlan mac : string,
     mac_entry line vlan mac -> collect_vlan_and_mac [line] = Ok [(vlan, mac)]) /\
  (forall line : string,
     (forall rest, line <> String "*" rest) ->
     Re.match_groupdict mac_line line = None /\
     collect_vlan_and_mac [line] = Ok []).
Proof.
  split; [|split; [|split]].
  - intros send_command interface H. unfold get_vlan_and_mac_addresses.
    rewrite H. vm_compute. reflexivity.
  - intros line groups H.
    apply PatternFacts.match_mac_line_inv in H as (vlan & mac & Hentry & ->).
    exists vlan, mac. split; [exact Hentry|].
    apply PatternFacts.mac_groups_lookup.
  - intros line vlan mac H. now rewrite (collect_entry line vlan mac [] H).
  - intros line Hline.
    assert (Hno : forall vlan mac, ~ mac_entry line vlan mac).
    { intros vlan mac (w & sp & rest & -> & _). now apply (Hline (String w (vlan +:+ sp +:+ mac +:+ rest))). }
    split.
    + destruct (Re.match_groupdict mac_line line) as [groups | ] eqn:Hm; [|reflexivity].
      apply PatternFacts.match_mac_line_inv in Hm as (vlan & mac & Hentry & _).
      now destruct (Hno vlan mac).
    + now rewrite (collect_no_entry line [] Hno).
Qed.

Lemma mac_table_parsing_witness :
  get_vlan_and_mac_addresses
    (fun _ => "* 4        0050.569f.0c60    dynamic     ~~~      F    F  Po6") "Po6"
  = Ok [("4", "0050.569f.0c60")] /\
  (Re.match_groupdict mac_line "static entry" = None /\
   collect_vlan_and_mac ["static entry"] = Ok []).
Proof.
  split.
  - apply (proj1 mac_table_parsing). reflexivity.
  - apply (proj2 (proj2 (proj2 mac_table_parsing))). discriminate.
Defined.

(** A MAC address written with colons is not an entry for the pattern. *)
Example mac_table_colon_form :
  collect_vlan_and_mac
    ["* 4        00:50:56:9f:0c:60    dynamic     ~~~      F    F  Po6"]
  = Ok [].
Proof. vm_compute. reflexivity. Qed.

(** C3, as the specification has it, fails: on the line of its example,
    which has two blanks after the marker, nothing is extracted. *)
Lemma mac_table_two_blanks_counterexample :
  get_vlan_and_mac_addresses
    (fun _ => "*  4        0050.569f.0c60    dynamic     ~~~      F    F  Po6") "Po6"
  = Ok [] /\
  Re.match_groupdict mac_line
    "*  4        0050.569f.0c60    dynamic     ~~~      F    F  Po6" = None.
Proof. split; vm_compute; reflexivity. Qed.

(** ** Discovery: parsing the address resolution *)

Lemma parse_ip_address_entry (output ip : string) :
  arp_entry output ip -> parse_ip_address output = Ok (Some ip).
Proof.
  intros H. apply PatternFacts.match_arp_line_intro in H as (age & Hm).
  unfold parse_ip_address, Re.getitem.
  now rewrite Hm, PatternFacts.arp_groups_lookup.
Qed.

Lemma parse_ip_address_inv (output : string) (r : result (option string)) :
  parse_ip_address output = r ->
  (exists ip, r = Ok (Some ip) /\ arp_entry output ip) \/
  (r = Ok None /\ forall ip, ~ arp_entry output ip).
Proof.
  intros <-. unfold parse_ip_address.
  destruct (Re.match_groupdict arp_line output) as [groups | ] eqn:Hm.
  - apply PatternFacts.match_arp_line_inv in Hm as (age & ip & Hentry & ->).
    left. exists ip. unfold Re.getitem.
    now rewrite PatternFacts.arp_groups_lookup.
  - right. split; [reflexivity|]. intros ip H.
    apply PatternFacts.match_arp_line_intro in H as (age & H). congruence.
Qed.

Lemma arp_entry_extends (output more ip : string) :
  arp_entry output ip -> arp_entry (output +:+ more) ip.
Proof.
  intros (a & b & c & d & sp1 & h & m & s & sp2 & rest & Hip & -> & H).
  exists a, b, c, d, sp1, h, m, s, sp2, (rest +:+ more).
  split; [exact Hip|]. split; [|exact H].
  now rewrite !string_app_assoc.
Qed.

Lemma arp_entry_starts_with_digit (c : ascii) (output ip : string) :
  arp_entry (String c output) ip -> Re.digit c = true.
Proof.
  intros (a & b & c' & d & sp1 & h & m & s & sp2 & rest & -> & Hout & [[Ha1 _] Ha] & _).
  destruct a as [ | x a ]; [cbn in Ha1; lia|].
  rewrite !string_app_cons in Hout. injection Hout as -> _.
  unfold all_in in Ha. cbn in Ha. now apply andb_prop in Ha as [Hx _].
Qed.

(** C4, as the code has it. The pattern is matched against the output
    from its first character, and nowhere else. An output whose first
    line is the entry of the example resolves to "10.25.5.37",
    whatever follows it. The address is returned exactly when the output
    begins with a dotted network address, blanks, an age field and
    blanks; in every other case it is left absent, without an error.
    In particular an output that begins with anything but a digit gives
    no address, whatever its later lines are. *)
Theorem arp_parsing_at_start :
  (forall rest : string,
     parse_ip_address
       ("10.25.5.37      00:08:31  0050.569f.0c60  Vlan4" +:+ rest)
     = Ok (Some "10.25.5.37")) /\
  (forall output ip : string,
     parse_ip_address output = Ok (Some ip) <-> arp_entry output ip) /\
  (forall output : string,
     parse_ip_address output = Ok None <-> forall ip, ~ arp_entry output ip) /\
  (forall output : string, exists r, parse_ip_address output = Ok r) /\
  (forall first more ip : string,
     arp_entry first ip -> parse_ip_address (first +:+ more) = Ok (Some ip)) /\
  (forall (c : ascii) (rest : string),
     Re.digit c = false -> parse_ip_address (String c rest) = Ok None) /\
  (forall (send_command : string -> string) (mac : string),
     get_ip_address send_command mac
     = parse_ip_address (send_command ("show ip arp | include " +:+ mac))).
Proof.
  assert (Hiff : forall output ip : string,
            parse_ip_address output = Ok (Some ip) <-> arp_entry output ip).
  { intros output ip. split; [|apply parse_ip_address_entry].
    intros H. apply parse_ip_address_inv in H as [(ip' & [= ->] & H) | [[=] _]].
    exact H. }
  assert (Hnone : forall output : string,
            parse_ip_address output = Ok None <-> forall ip, ~ arp_entry output ip).
  { intros output. split.
    - intros H. apply parse_ip_address_inv in H as [(ip' & [=] & _) | [_ H]].
      exact H.
    - intros H.
      destruct (parse_ip_address_inv output _ eq_refl) as [(ip & _ & Hip) | [-> _]];
        [now destruct (H ip) | reflexivity]. }
  split; [|split; [exact Hiff|split; [exact Hnone|split; [|split; [|split]]]]].
  - intros rest. apply parse_ip_address_entry.
    exists "10", "25", "5", "37", "      ", "00", "08", "31", "  ",
      ("0050.569f.0c60  Vlan4" +:+ rest).
    repeat split; try reflexivity; cbn; lia.
  - intros output.
    destruct (parse_ip_address_inv output _ eq_refl) as [(ip & -> & _) | [-> _]];
      eexists; reflexivity.
  - intros first more ip H. now apply parse_ip_address_entry, arp_entry_extends.
  - intros c rest Hc. apply Hnone. intros ip H.
    apply arp_entry_starts_with_digit in H. congruence.
  - reflexivity.
Qed.

Lemma arp_parsing_at_start_witness :
  arp_entry "10.25.5.37 00:08:31 " "10.25.5.37" /\
  parse_ip_address ("10.25.5.37 00:08:31 " +:+ "0050.569f.0c60  Vlan4")
  = Ok (Some "10.25.5.37") /\
  parse_ip_address ("Header" +:+ nl +:+ "10.25.5.37 00:08:31 0050.569f.0c60 Vlan4")
  = Ok None.
Proof.
  assert (H : arp_entry "10.25.5.37 00:08:31 " "10.25.5.37").
  { exists "10", "25", "5", "37", " ", "00", "08", "31", " ", "".
    repeat split; try reflexivity; cbn; lia. }
  split; [exact H|]. split.
  - apply (proj1 (proj2 (proj2 (proj2 (proj2 arp_parsing_at_start))))
             "10.25.5.37 00:08:31 " "0050.569f.0c60  Vlan4" "10.25.5.37" H).
  - apply (proj1 (proj2 (proj2 (proj2 (proj2 (proj2 arp_parsing_at_start)))))).
    reflexivity.
Defined.

(** C4, as the specification has it, fails on both of its readings. An
    entry on the second line is the first line of the output that has
    the shape, yet the code finds no address; and where the address
    ends one line and the age begins the next, no line has the shape,
    yet the code does find an address. *)
Lemma arp_first_matching_line_counterexample :
  (spec_parse_ip_address
     ("Header" +:+ nl +:+ "10.25.5.37      00:08:31  0050.569f.0c60  Vlan4")
   = Some "10.25.5.37" /\
   parse_ip_address
     ("Header" +:+ nl +:+ "10.25.5.37      00:08:31  0050.569f.0c60  Vlan4")
   = Ok None) /\
  (spec_parse_ip_address ("10.25.5.37" +:+ nl +:+ "00:08:31" +:+ nl) = None /\
   parse_ip_address ("10.25.5.37" +:+ nl +:+ "00:08:31" +:+ nl)
   = Ok (Some "10.25.5.37")).
Proof. repeat split; vm_compute; reflexivity. Qed.

(** ** The whole program *)

Section ProgramFacts.

Variable send_command : string -> string.
Variable gethostbyaddr : string -> option string.
Variable os_system_status : nat -> string -> Z.
Variable os_system_output : nat -> string -> string.
Variable datetime : Type.
Variable datetime_now : nat -> datetime.
Variable datetime_str : datetime -> string.
Variable tabulate : list row -> list string -> string.
Variable INTERFACES : list string.

Lemma append_nodes_ok (interface : string) (pairs : list (string * string)) :
  forall nodes, Forall counts_ok nodes ->
  exists nodes', append_nodes send_command nodes interface pairs = Ok nodes' /\
    Forall counts_ok nodes' /\
    length nodes' = (length nodes + length pairs)%nat.
Proof.
  induction pairs as [ | [vlan mac] pairs IH ]; intros nodes Hok.
  - exists nodes. cbn. split; [reflexivity|]. split; [exact Hok | lia].
  - cbn [append_nodes]. unfold get_ip_address.
    destruct (parse_ip_address_inv
                (send_command ("show ip arp | include " +:+ mac)) _ eq_refl)
      as [(ip & -> & _) | [-> _]]; cbn [bind].
    + destruct (IH (nodes ++ [Node_init mac (Some ip) interface vlan]))
        as (nodes' & Hrun & Hok' & Hlen).
      { apply Forall_app. split; [exact Hok|]. repeat constructor; cbn; lia. }
      exists nodes'. split; [exact Hrun|]. split; [exact Hok'|].
      rewrite Hlen, length_app. cbn. lia.
    + destruct (IH (nodes ++ [Node_init mac None interface vlan]))
        as (nodes' & Hrun & Hok' & Hlen).
      { apply Forall_app. split; [exact Hok|]. repeat constructor; cbn; lia. }
      exists nodes'. split; [exact Hrun|]. split; [exact Hok'|].
      rewrite Hlen, length_app. cbn. lia.
Qed.

(** Discovery never raises, whatever the device answers, and every Node
    it creates starts with both counts at zero. *)
Lemma discover_ok (interfaces : list string) :
  forall nodes, Forall counts_ok nodes ->
  exists nodes', discover send_command nodes interfaces = Ok nodes' /\
    Forall counts_ok nodes'.
Proof.
  induction interfaces as [ | interface interfaces IH ]; intros nodes Hok.
  - exists nodes. split; [reflexivity | exact Hok].
  - cbn [discover]. unfold create_attached_nodes, get_vlan_and_mac_addresses.
    destruct (collect_vlan_and_mac_spec
                (split (ascii_of_nat 10)
                   (send_command ("show mac address-table interface " +:+ interface))))
      as (pairs & -> & _).
    cbn [bind].
    destruct (append_nodes_ok interface pairs nodes Hok) as (nodes1 & -> & Hok1 & _).
    cbn [bind]. apply IH, Hok1.
Qed.

Lemma resolve_names_counts_ok (nodes : list Node) :
  Forall counts_ok nodes -> Forall counts_ok (resolve_names gethostbyaddr nodes).
Proof.
  intros H. unfold resolve_names. apply Forall_fmap.
  eapply Forall_impl; [exact H|]. intros node Hnode. cbn.
  now destruct (ip_address node).
Qed.

(** The program runs through any number of passes of its loop without
    raising, for every behaviour of the device, the resolver, the shell
    and the clock; the Table it ends with has one row per Node. *)
Lemma main_runs (n : nat) (w : World) :
  exists nodes table w',
    main send_command gethostbyaddr os_system_status os_system_output
      datetime datetime_now datetime_str tabulate INTERFACES n w
    = Ok (nodes, table, w') /\
    Forall counts_ok nodes /\
    length (rows table) = length nodes.
Proof.
  unfold main.
  destruct (discover_ok INTERFACES [] ltac:(constructor)) as (found & -> & Hfound).
  cbn [bind].
  pose proof (resolve_names_counts_ok found Hfound) as Hok.
  set (nodes := resolve_names gethostbyaddr found) in *.
  destruct (pre_populate_table_ok nodes Table_init Hok) as (rs & Hrs & ->).
  cbn [bind now].
  set (table := {| headers := headers Table_init; rows := rows Table_init ++ rs |}).
  assert (Hlen : length (rows table) = length nodes).
  { cbn. symmetry. eapply Forall2_length. exact Hrs. }
  destruct (monitor_spec os_system_status os_system_output datetime datetime_now
              datetime_str tabulate (datetime_now (clock_reads w)) n nodes table
              {| files := files w; shell_log := shell_log w;
                 clock_reads := Datatypes.S (clock_reads w) |} Hok Hlen)
    as (nodes' & table' & w' & Hmon & Hid & Hok' & Hlen' & _).
  exists nodes', table', w'. split; [exact Hmon|]. split; [exact Hok'|].
  rewrite Hlen', Hlen. eapply Forall2_length. exact Hid.
Qed.

End ProgramFacts.

(** ** The loop, pass by pass *)

Section LoopFacts.

Variable os_system_status : nat -> string -> Z.
Variable os_system_output : nat -> string -> string.
Variable datetime : Type.
Variable datetime_now : nat -> datetime.
Variable datetime_str : datetime -> string.
Variable tabulate : list row -> list string -> string.

Local Abbreviation ping_ := (ping os_system_status os_system_output).
Local Abbreviation save_ := (save datetime datetime_str tabulate).
Local Abbreviation artifact_ := (artifact datetime datetime_str tabulate).
Local Abbreviation monitor_nodes_ :=
  (monitor_nodes os_system_status os_system_output datetime datetime_now
     datetime_str tabulate).
Local Abbreviation monitor_ :=
  (monitor os_system_status os_system_output datetime datetime_now
     datetime_str tabulate).

Lemma probed_times_absent (k : Z) (a : Node) :
  has_address a = false -> probed_times k a a.
Proof. intros H. unfold probed_times. rewrite H. split; [apply same_identity_refl | reflexivity]. Qed.

Lemma has_address_same_identity (a b : Node) :
  same_identity a b -> has_address b = has_address a.
Proof. intros (_ & H & _). unfold has_address. now rewrite H. Qed.

Lemma probed_times_trans (j k : Z) (a b c : Node) :
  probed_times j a b -> probed_times k b c -> probed_times (j + k) a c.
Proof.
  intros [Hab Ha] [Hbc Hb]. split; [eapply same_identity_trans; eassumption|].
  rewrite (has_address_same_identity a b Hab) in Hb.
  destruct (has_address a); [lia | congruence].
Qed.

Lemma probes_nil_iff (nodes : list Node) :
  probes nodes = [] <-> Forall (fun node => has_address node = false) nodes.
Proof.
  induction nodes as [ | node nodes IH ]; cbn [probes].
  - split; [constructor | reflexivity].
  - destruct (ip_address node) eqn:Hip.
    + split; [discriminate|]. intros H. apply Forall_cons in H as [H _].
      unfold has_address in H. rewrite Hip in H. discriminate.
    + rewrite IH. split; intros H.
      * constructor; [unfold has_address; now rewrite Hip | exact H].
      * now apply Forall_cons in H as [_ H].
Qed.

Lemma ping_outputs_app (i : nat) (l k : list string) :
  ping_outputs os_system_output i (l ++ k)
  = ping_outputs os_system_output i l
      +:+ ping_outputs os_system_output (i + length l) k.
Proof.
  revert i. induction l as [ | c l IH ]; intros i; cbn [ping_outputs app length].
  - now rewrite Nat.add_0_r.
  - rewrite IH, string_app_assoc. do 3 f_equal. lia.
Qed.

Lemma string_app_empty (s : string) : s +:+ "" = s.
Proof.
  induction s as [ | c s IH ]; [reflexivity|].
  now rewrite string_app_cons, IH.
Qed.

(** One pass from position [i0]: what it does to the counts, the clock
    and the files. *)
Lemma monitor_nodes_effects (start : datetime) (nodes : list Node) :
  forall (i0 : nat) (table : Table) (w : World),
  Forall counts_ok nodes ->
  (i0 + length nodes <= length (rows table))%nat ->
  exists nodes' table' w',
    monitor_nodes_ nodes (Z.of_nat i0) table start w = Ok (nodes', table', w') /\
    Forall2 (probed_times 1) nodes nodes' /\
    headers table' = headers table /\
    clock_reads w' = (clock_reads w + length (probes nodes))%nat /\
    (probes nodes = [] -> table' = table /\ w' = w) /\
    (probes nodes <> [] ->
     files w' !! "output_table.txt"
     = Some (artifact_ table' start (datetime_now (clock_reads w' - 1)))) /\
    read_file "output.txt" w'
    = read_file "output.txt" w
        +:+ ping_outputs os_system_output (length (shell_log w)) (probes nodes) /\
    (forall path, path <> "output.txt" -> path <> "output_table.txt" ->
       files w' !! path = files w !! path).
Proof.
  induction nodes as [ | node nodes IH ]; intros i0 table w Hok Hlen.
  - exists [], table, w. cbn [monitor_nodes probes ping_outputs length].
    split; [reflexivity|]. split; [constructor|]. split; [reflexivity|].
    split; [lia|]. split; [now split|]. split; [now intros []|].
    split; [now rewrite string_app_empty | reflexivity].
  - apply Forall_cons in Hok as [Hnode Hok]. cbn [length] in Hlen.
    cbn [monitor_nodes probes].
    replace (Z.of_nat i0 + 1) with (Z.of_nat (S i0)) by lia.
    destruct (ip_address node) as [a | ] eqn:Hip.
    + set (node1 := fst (ping_ node w)). set (w1 := snd (ping_ node w)).
      replace (ping_ node w) with (node1, w1)
        by (unfold node1, w1; now destruct (ping_ node w)).
      assert (Hok1 : counts_ok node1)
        by (unfold node1; rewrite ping_node; now apply record_outcome_counts_ok).
      assert (Hp1 : probed_times 1 node node1).
      { unfold node1. rewrite ping_node. split; [apply record_outcome_identity|].
        unfold has_address. rewrite Hip. unfold record_outcome.
        destruct (_ =? 0); cbn; lia. }
      destruct (update_row_ok table node1 i0 Hok1 ltac:(lia)) as (r & Hr & Hup).
      rewrite Hup. cbn [bind now].
      set (table1 := {| headers := headers table; rows := <[i0 := r]> (rows table) |}).
      set (w3 := save_ table1 start _ _).
      assert (Hlen1 : (S i0 + length nodes <= length (rows table1))%nat)
        by (cbn [rows table1]; rewrite length_insert; lia).
      destruct (IH (S i0) table1 w3 Hok Hlen1)
        as (nodes' & table' & w' & Hrun & Hpr & Hhd & Hclk & Hidle & Hsnap & Hout & Hframe).
      rewrite Hrun. cbn [bind].
      exists (node1 :: nodes'), table', w'.
      assert (Hw3_clock : clock_reads w3 = S (clock_reads w)) by reflexivity.
      assert (Hw3_log : shell_log w3 = shell_log w ++ [ping_command node])
        by reflexivity.
      assert (Hw3_table : files w3 !! "output_table.txt"
                          = Some (artifact_ table1 start (datetime_now (clock_reads w)))).
      { unfold w3, save, write_file. cbn [files clock_reads snd].
        apply lookup_insert_eq. }
      assert (Hw3_out : read_file "output.txt" w3
                        = read_file "output.txt" w
                            +:+ os_system_output (length (shell_log w)) (ping_command node)).
      { unfold read_file, w3, save, write_file. cbn [files snd].
        rewrite lookup_insert_ne by discriminate.
        unfold w1, ping, os_system. cbn [files snd].
        now rewrite lookup_insert_eq. }
      assert (Hw3_frame : forall path, path <> "output.txt" ->
                path <> "output_table.txt" -> files w3 !! path = files w !! path).
      { intros path H1 H2. unfold w3, save, write_file. cbn [files snd].
        rewrite lookup_insert_ne by congruence.
        unfold w1, ping, os_system. cbn [files snd].
        now rewrite lookup_insert_ne by congruence. }
      split; [reflexivity|]. split; [now constructor|].
      split; [rewrite Hhd; reflexivity|].
      split; [rewrite Hclk, Hw3_clock; cbn [length]; lia|].
      split; [discriminate|].
      split.
      { intros _. destruct (probes nodes) as [ | c cs ] eqn:Hprobes.
        - destruct (Hidle eq_refl) as [-> ->].
          rewrite Hw3_clock, Hw3_table. cbn. now rewrite Nat.sub_0_r.
        - apply Hsnap. discriminate. }
      split.
      { rewrite Hout, Hw3_out, Hw3_log, length_app. cbn [ping_outputs length].
        rewrite string_app_assoc. do 3 f_equal. lia. }
      { intros path H1 H2. rewrite Hframe by assumption. now apply Hw3_frame. }
    + destruct (IH (S i0) table w Hok ltac:(lia))
        as (nodes' & table' & w' & Hrun & Hpr & Hhd & Hclk & Hidle & Hsnap & Hout & Hframe).
      rewrite Hrun. cbn [bind].
      exists (node :: nodes'), table', w'.
      split; [reflexivity|].
      split.
      { constructor; [|exact Hpr]. apply probed_times_absent.
        unfold has_address. now rewrite Hip. }
      repeat split; try assumption; now apply Hidle.
Qed.

Lemma probed_times_same_identity (k : Z) (nodes nodes' : list Node) :
  Forall2 (probed_times k) nodes nodes' -> Forall2 same_identity nodes nodes'.
Proof. intros H. eapply Forall2_impl; [exact H|]. now intros a b [Hab _]. Qed.

Lemma probed_times_idle (k : Z) (nodes nodes' : list Node) :
  probes nodes = [] -> Forall2 (probed_times k) nodes nodes' -> nodes' = nodes.
Proof.
  rewrite probes_nil_iff. intros Hno H.
  induction H as [ | a b l l' [_ Hab] _ IH ]; [reflexivity|].
  apply Forall_cons in Hno as [Ha Hno]. rewrite Ha in Hab.
  now rewrite Hab, IH.
Qed.

(** The first [n] passes: what they do to the counts, the clock and
    the files. *)
Lemma monitor_effects (start : datetime) (n : nat) :
  forall (nodes : list Node) (table : Table) (w : World),
  Forall counts_ok nodes ->
  length (rows table) = length nodes ->
  exists nodes' table' w',
    monitor_ n nodes table start w = Ok (nodes', table', w') /\
    Forall2 (probed_times (Z.of_nat n)) nodes nodes' /\
    headers table' = headers table /\
    clock_reads w' = (clock_reads w + n * length (probes nodes))%nat /\
    (probes nodes = [] -> nodes' = nodes /\ table' = table /\ w' = w) /\
    (n <> O -> probes nodes <> [] ->
     files w' !! "output_table.txt"
     = Some (artifact_ table' start (datetime_now (clock_reads w' - 1)))) /\
    read_file "output.txt" w'
    = read_file "output.txt" w
        +:+ ping_outputs os_system_output (length (shell_log w))
              (concat (replicate n (probes nodes))) /\
    (forall path, path <> "output.txt" -> path <> "output_table.txt" ->
       files w' !! path = files w !! path).
Proof.
  induction n as [ | n IH ]; intros nodes table w Hok Hlen.
  - exists nodes, table, w. cbn [monitor replicate concat ping_outputs].
    split; [reflexivity|].
    split.
    { apply Forall2_same_length_lookup_2; [reflexivity|].
      intros i x y Hx Hy. rewrite Hx in Hy. injection Hy as <-.
      split; [apply same_identity_refl|]. destruct (has_address x); [lia | reflexivity]. }
    split; [reflexivity|]. split; [lia|]. split; [now repeat split|].
    split; [now intros []|].
    split; [now rewrite string_app_empty | reflexivity].
  - cbn [monitor]. unfold cycle.
    destruct (monitor_nodes_spec os_system_status os_system_output datetime
                datetime_now datetime_str tabulate start nodes 0 table w Hok
                ltac:(lia))
      as (nodes1 & table1 & w1 & Hrun & _ & Hok1 & Hlen1 & Hlog1 & _).
    destruct (monitor_nodes_effects start nodes 0 table w Hok ltac:(lia))
      as (nodes1' & table1' & w1' & Hrun' & Hpr1 & Hhd1 & Hclk1 & Hidle1 & Hsnap1
          & Hout1 & Hframe1).
    rewrite Hrun in Hrun'. injection Hrun' as <- <- <-.
    change (Z.of_nat 0) with 0 in Hrun. rewrite Hrun. cbn [bind].
    pose proof (probed_times_same_identity 1 nodes nodes1 Hpr1) as Hid1.
    assert (Hlen1' : length (rows table1) = length nodes1).
    { rewrite Hlen1, Hlen. eapply Forall2_length; exact Hid1. }
    pose proof (probes_same_identity nodes nodes1 Hid1) as Hprobes.
    destruct (IH nodes1 table1 w1 Hok1 Hlen1')
      as (nodes' & table' & w' & Hmon & Hpr & Hhd & Hclk & Hidle & Hsnap & Hout
          & Hframe).
    rewrite Hprobes in Hclk, Hidle, Hsnap, Hout.
    exists nodes', table', w'.
    split; [exact Hmon|].
    split.
    { replace (Z.of_nat (S n)) with (1 + Z.of_nat n) by lia.
      eapply Forall2_trans; [|exact Hpr1|exact Hpr].
      intros x y z. apply probed_times_trans. }
    split; [congruence|].
    split; [rewrite Hclk, Hclk1; lia|].
    split.
    { intros Hno. destruct (Hidle1 Hno) as [-> ->].
      pose proof (probed_times_idle 1 nodes nodes1 Hno Hpr1) as ->.
      now apply Hidle. }
    split.
    { intros _ Hsome. destruct n as [ | n ].
      - cbn [monitor] in Hmon. injection Hmon as <- <- <-. now apply Hsnap1.
      - now apply Hsnap. }
    split.
    { rewrite Hout, Hout1, Hlog1, length_app. cbn [replicate concat].
      now rewrite ping_outputs_app, string_app_assoc. }
    { intros path H1 H2. rewrite Hframe by assumption. now apply Hframe1. }
Qed.



(** X2. Every pass probes each Node that has an address exactly once and
    no other: after [n] passes the two counts of such a Node sum to [n]
    more than before and neither has gone down, a Node without an
    address is the Node it was, and the shell has run, and the clock has
    been read, [n] times the number of Nodes that have an address. *)
Theorem probes_accounted (start : datetime) (n : nat)
    (nodes : list Node) (table : Table) (w : World) :
  Forall counts_ok nodes ->
  length (rows table) = length nodes ->
  exists nodes' table' w',
    monitor_ n nodes table start w = Ok (nodes', table', w') /\
    Forall2 (probed_times (Z.of_nat n)) nodes nodes' /\
    length (shell_log w')
    = (length (shell_log w) + n * length (probes nodes))%nat /\
    clock_reads w' = (clock_reads w + n * length (probes nodes))%nat.
Proof.
  intros Hok Hlen.
  destruct (monitor_spec os_system_status os_system_output datetime datetime_now
              datetime_str tabulate start n nodes table w Hok Hlen)
    as (nodes' & table' & w' & Hmon & _ & _ & _ & Hlog & _).
  destruct (monitor_effects start n nodes table w Hok Hlen)
    as (nodes2 & table2 & w2 & Hmon2 & Hpr & _ & Hclk & _).
  rewrite Hmon in Hmon2. injection Hmon2 as <- <- <-.
  exists nodes', table', w'. split; [exact Hmon|]. split; [exact Hpr|].
  split; [|exact Hclk].
  rewrite Hlog, length_app. f_equal.
  clear. induction n as [ | n IH ]; [reflexivity|].
  cbn [replicate concat]. rewrite length_app, IH. lia.
Qed.

(** X3. After at least one pass over Nodes of which one has an address,
    the persisted snapshot is the rendering of the Table as the loop
    leaves it, headed by the start of monitoring, which never changes,
    and by the last reading of the clock. *)
Theorem snapshot_is_current (start : datetime) (n : nat)
    (nodes : list Node) (table : Table) (w : World) :
  Forall counts_ok nodes ->
  length (rows table) = length nodes ->
  n <> O -> probes nodes <> [] ->
  exists nodes' table' w',
    monitor_ n nodes table start w = Ok (nodes', table', w') /\
    read_file "output_table.txt" w'
    = datetime_str start +:+ " - "
        +:+ datetime_str (datetime_now (clock_reads w' - 1))
        +:+ nl +:+ nl +:+ tabulate (rows table') (headers table).
Proof.
  intros Hok Hlen Hn Hsome.
  destruct (monitor_effects start n nodes table w Hok Hlen)
    as (nodes' & table' & w' & Hmon & _ & Hhd & _ & _ & Hsnap & _).
  exists nodes', table', w'. split; [exact Hmon|].
  unfold read_file. rewrite (Hsnap Hn Hsome). cbn [default].
  unfold artifact. now rewrite Hhd.
Qed.

(** X4. With no Node that has an address the loop does nothing at all,
    however long it runs: no probe, no reading of the clock, no change
    to the Nodes or the Table, and no file written, so the snapshot is
    never created. *)
Theorem idle_loop_changes_nothing (start : datetime) (n : nat)
    (nodes : list Node) (table : Table) (w : World) :
  Forall (fun node => ip_address node = None) nodes ->
  monitor_ n nodes table start w = Ok (nodes, table, w).
Proof.
  intros Hno. revert Hno. clear.
  intros Hno.
  assert (Hpass : forall i, monitor_nodes_ nodes i table start w = Ok (nodes, table, w)).
  { induction nodes as [ | node nodes IH ]; intros i; [reflexivity|].
    apply Forall_cons in Hno as [Hnode Hno]. cbn [monitor_nodes].
    rewrite Hnode, (IH Hno). reflexivity. }
  induction n as [ | n IH ]; [reflexivity|].
  cbn [monitor]. unfold cycle. rewrite Hpass. cbn [bind]. exact IH.
Qed.

(** X5. The loop writes to two files only. [output.txt] is only ever
    appended to, by the probes, in the order they run; every file other
    than it and the snapshot is left as it was. *)
Theorem loop_touches_two_files (start : datetime) (n : nat)
    (nodes : list Node) (table : Table) (w : World) :
  Forall counts_ok nodes ->
  length (rows table) = length nodes ->
  exists nodes' table' w',
    monitor_ n nodes table start w = Ok (nodes', table', w') /\
    read_file "output.txt" w'
    = read_file "output.txt" w
        +:+ ping_outputs os_system_output (length (shell_log w))
              (concat (replicate n (probes nodes))) /\
    (forall path, path <> "output.txt" -> path <> "output_table.txt" ->
       files w' !! path = files w !! path).
Proof.
  intros Hok Hlen.
  destruct (monitor_effects start n nodes table w Hok Hlen)
    as (nodes' & table' & w' & Hmon & _ & _ & _ & _ & _ & Hout & Hframe).
  exists nodes', table', w'. split; [exact Hmon|]. split; [exact Hout | exact Hframe].
Qed.

End LoopFacts.


Lemma probes_accounted_witness :
  let a := Node_init "0050.569f.0c60" (Some "10.25.5.37") "Po6" "4" in
  let b := Node_init "0050.569f.0c61" None "Po7" "4" in
  let seeded :=
    {| headers := headers Table_init;
       rows := [[Some "Po6"; Some "4"; Some "0050.569f.0c60"; Some "10.25.5.37";
                 None; Some "0%"];
                [Some "Po7"; Some "4"; Some "0050.569f.0c61"; None; None;
                 Some "0%"]] |} in
  Forall counts_ok [a; b] /\
  length (rows seeded) = length [a; b] /\
  exists nodes' table' w',
    monitor (fun i _ => Z.of_nat i) (fun _ _ => "") nat (fun i => i)
      (fun _ => "") (fun _ _ => "") 3 [a; b] seeded 0%nat (mkWorld ∅ [] 0)
    = Ok (nodes', table', w') /\
    Forall2 (probed_times 3) [a; b] nodes' /\
    length (shell_log w') = 3%nat /\
    clock_reads w' = 3%nat.
Proof.
  cbv zeta.
  assert (Hok : Forall counts_ok
                  [Node_init "0050.569f.0c60" (Some "10.25.5.37") "Po6" "4";
                   Node_init "0050.569f.0c61" None "Po7" "4"])
    by (repeat constructor; cbn; lia).
  split; [exact Hok|]. split; [reflexivity|].
  exact (probes_accounted (fun i _ => Z.of_nat i) (fun _ _ => "") nat
           (fun i => i) (fun _ => "") (fun _ _ => "") 0%nat 3 _
           {| headers := headers Table_init;
              rows := [[Some "Po6"; Some "4"; Some "0050.569f.0c60";
                        Some "10.25.5.37"; None; Some "0%"];
                       [Some "Po7"; Some "4"; Some "0050.569f.0c61"; None;
                        None; Some "0%"]] |}
           (mkWorld ∅ [] 0) Hok eq_refl).
Defined.

Lemma snapshot_is_current_witness :
  let a := Node_init "0050.569f.0c60" (Some "10.25.5.37") "Po6" "4" in
  let b := Node_init "0050.569f.0c61" None "Po7" "4" in
  let seeded :=
    {| headers := headers Table_init;
       rows := [[Some "Po6"; Some "4"; Some "0050.569f.0c60"; Some "10.25.5.37";
                 None; Some "0%"];
                [Some "Po7"; Some "4"; Some "0050.569f.0c61"; None; None;
                 Some "0%"]] |} in
  let stamp := fun i : nat => if Nat.eqb i 7 then "start" else
                               if Nat.eqb i 1 then "second" else "other" in
  Forall counts_ok [a; b] /\
  length (rows seeded) = length [a; b] /\
  2%nat <> O /\ probes [a; b] <> [] /\
  exists nodes' table' w',
    monitor (fun i _ => Z.of_nat i) (fun _ _ => "") nat (fun i => i)
      stamp (fun rows _ => "table") 2 [a; b] seeded 7%nat (mkWorld ∅ [] 0)
    = Ok (nodes', table', w') /\
    read_file "output_table.txt" w'
    = "start - second" +:+ nl +:+ nl +:+ "table".
Proof.
  cbv zeta.
  assert (Hok : Forall counts_ok
                  [Node_init "0050.569f.0c60" (Some "10.25.5.37") "Po6" "4";
                   Node_init "0050.569f.0c61" None "Po7" "4"])
    by (repeat constructor; cbn; lia).
  split; [exact Hok|]. split; [reflexivity|].
  split; [discriminate|]. split; [discriminate|].
  destruct (snapshot_is_current (fun i _ => Z.of_nat i) (fun _ _ => "") nat
           (fun i => i)
           (fun i : nat => if Nat.eqb i 7 then "start" else
                          if Nat.eqb i 1 then "second" else "other")
           (fun rows _ => "table") 7%nat 2 _
           {| headers := headers Table_init;
              rows := [[Some "Po6"; Some "4"; Some "0050.569f.0c60";
                        Some "10.25.5.37"; None; Some "0%"];
                       [Some "Po7"; Some "4"; Some "0050.569f.0c61"; None;
                        None; Some "0%"]] |}
           (mkWorld ∅ [] 0) Hok eq_refl ltac:(discriminate) ltac:(discriminate))
    as (nodes' & table' & w' & Hmon & Hsnap).
  exists nodes', table', w'. split; [exact Hmon|].
  rewrite Hsnap.
  vm_compute in Hmon. injection Hmon as <- <- <-. reflexivity.
Defined.

Lemma idle_loop_changes_nothing_witness :
  let b := Node_init "0050.569f.0c61" None "Po7" "4" in
  let seeded :=
    {| headers := headers Table_init;
       rows := [[Some "Po7"; Some "4"; Some "0050.569f.0c61"; None; None;
                 Some "0%"]] |} in
  Forall (fun node => ip_address node = None) [b] /\
  monitor (fun _ _ => 0) (fun _ _ => "reply") nat (fun i => i)
    (fun _ => "") (fun _ _ => "") 5 [b] seeded 0%nat (mkWorld ∅ [] 0)
  = Ok ([b], seeded, mkWorld ∅ [] 0).
Proof.
  cbv zeta. split; [repeat constructor|].
  apply (idle_loop_changes_nothing (fun _ _ => 0) (fun _ _ => "reply") nat
           (fun i => i) (fun _ => "") (fun _ _ => "") 0%nat 5).
  repeat constructor.
Defined.

Lemma loop_touches_two_files_witness :
  let a := Node_init "0050.569f.0c60" (Some "10.25.5.37") "Po6" "4" in
  let b := Node_init "0050.569f.0c61" None "Po7" "4" in
  let seeded :=
    {| headers := headers Table_init;
       rows := [[Some "Po6"; Some "4"; Some "0050.569f.0c60"; Some "10.25.5.37";
                 None; Some "0%"];
                [Some "Po7"; Some "4"; Some "0050.569f.0c61"; None; None;
                 Some "0%"]] |} in
  let w := mkWorld (<["output.txt" := "old;"]> (<["notes.txt" := "mine"]> ∅)) [] 0 in
  let reply := fun (i : nat) (_ : string) => if Nat.eqb i 0 then "first;" else "next;" in
  Forall counts_ok [a; b] /\
  length (rows seeded) = length [a; b] /\
  exists nodes' table' w',
    monitor (fun i _ => Z.of_nat i) reply nat (fun i => i)
      (fun _ => "") (fun _ _ => "") 2 [a; b] seeded 0%nat w
    = Ok (nodes', table', w') /\
    read_file "output.txt" w' = "old;first;next;" /\
    files w' !! "notes.txt" = Some "mine".
Proof.
  cbv zeta.
  assert (Hok : Forall counts_ok
                  [Node_init "0050.569f.0c60" (Some "10.25.5.37") "Po6" "4";
                   Node_init "0050.569f.0c61" None "Po7" "4"])
    by (repeat constructor; cbn; lia).
  split; [exact Hok|]. split; [reflexivity|].
  destruct (loop_touches_two_files (fun i _ => Z.of_nat i)
           (fun (i : nat) (_ : string) => if Nat.eqb i 0 then "first;" else "next;")
           nat (fun i => i) (fun _ => "") (fun _ _ => "") 0%nat 2 _
           {| headers := headers Table_init;
              rows := [[Some "Po6"; Some "4"; Some "0050.569f.0c60";
                        Some "10.25.5.37"; None; Some "0%"];
                       [Some "Po7"; Some "4"; Some "0050.569f.0c61"; None;
                        None; Some "0%"]] |}
           (mkWorld (<["output.txt" := "old;"]> (<["notes.txt" := "mine"]> ∅)) [] 0)
           Hok eq_refl)
    as (nodes' & table' & w' & Hmon & Hout & Hframe).
  exists nodes', table', w'. split; [exact Hmon|].
  split.
  - rewrite Hout. vm_compute. reflexivity.
  - rewrite Hframe by discriminate. vm_compute. reflexivity.
Defined.

(** ** More on the response rate *)

Lemma response_rate_tenths (n : Node) :
  successful_pings n <> 0 -> counts_ok n ->
  exists k, 0 <= k <= 1000 /\
    response_rate n = Ok (PyFloat.one_decimal k +:+ "%") /\
    Z.abs (k * (successful_pings n + failed_pings n) - 1000 * successful_pings n)
      * 2 ^ 39
    <= (successful_pings n + failed_pings n) * (2 ^ 38 + 1).
Proof.
  intros Hne [Hs Hf].
  destruct (FloatFacts.rate_steps (successful_pings n) (failed_pings n))
    as (q & p & k & Hq & Hp & Hr & Hk & Hacc); [lia | lia |].
  exists k. split; [exact Hk|]. split; [|exact Hacc].
  unfold response_rate.
  destruct (successful_pings n =? 0) eqn:H0; [apply Z.eqb_eq in H0; lia|].
  rewrite Hq. cbn [bind]. rewrite Hp. cbn [bind].
  now rewrite Hr, (FloatFacts.repr_tenths k Hk).
Qed.

Lemma one_decimal_not_bare_zero_checked :
  forallb (fun k => negb (String.eqb (PyFloat.one_decimal k +:+ "%") "0%"))
    (seqZ 0 1001) = true.
Proof. vm_compute. reflexivity. Qed.

(** X6. The bare ["0%"] is the mark of a Node that has never answered:
    with counts that are not negative, the rate is ["0%"] exactly when
    there is no successful probe. A Node that has answered at least once
    always shows a decimal point, ["0.0%"] at the least. *)
Theorem bare_zero_iff_no_success (n : Node) :
  counts_ok n ->
  (response_rate n = Ok "0%" <-> successful_pings n = 0).
Proof.
  intros Hok. split; [|apply response_rate_guard].
  intros Hrate.
  destruct (Z.eq_dec (successful_pings n) 0) as [H0 | Hne]; [exact H0|].
  destruct (response_rate_tenths n Hne Hok) as (k & Hk & Hr & _).
  rewrite Hr in Hrate. injection Hrate as Hrate.
  pose proof one_decimal_not_bare_zero_checked as H.
  rewrite forallb_forall in H.
  specialize (H k ltac:(apply list_elem_of_In, elem_of_seqZ; lia)).
  apply negb_true_iff, String.eqb_neq in H. contradiction.
Qed.

Lemma bare_zero_iff_no_success_witness :
  let n := mkNode "0050.569f.0c60" (Some "10.25.5.37") "Po6" "4" None true 1 9999 in
  counts_ok n /\ response_rate n = Ok "0.0%" /\ response_rate n <> Ok "0%".
Proof.
  cbv zeta. split; [split; cbn; lia|]. split; [vm_compute; reflexivity|].
  intros H.
  apply (bare_zero_iff_no_success
           (mkNode "0050.569f.0c60" (Some "10.25.5.37") "Po6" "4" None true 1 9999))
    in H; [discriminate | split; cbn; lia].
Defined.

(** X7. A percentage that is a whole number of tenths is printed as it
    is: when [1000 * successes = K * (successes + failures)] the rate is
    [K / 10] with its one decimal. So a Node that has answered every
    probe shows ["100.0%"] and one that has answered half shows
    ["50.0%"], whatever the size of the counts. *)
Theorem exact_tenths_printed_exactly (n : Node) (K : Z) :
  counts_ok n -> successful_pings n <> 0 ->
  1000 * successful_pings n = K * (successful_pings n + failed_pings n) ->
  response_rate n
  = Ok (str_int (K / 10) +:+ "." +:+ str_int (K mod 10) +:+ "%").
Proof.
  intros Hok Hne HK. pose proof Hok as [Hs Hf].
  destruct (response_rate_tenths n Hne Hok) as (k & Hk & Hr & Hacc).
  assert (k = K).
  { set (N := successful_pings n + failed_pings n) in *.
    assert (HN : 0 < N) by (unfold N; lia).
    rewrite HK in Hacc.
    replace (k * N - K * N) with ((k - K) * N) in Hacc by ring.
    rewrite Z.abs_mul, (Z.abs_eq N) in Hacc by lia.
    change (2 ^ 39) with 549755813888 in Hacc.
    change (2 ^ 38) with 274877906944 in Hacc.
    assert (Z.abs (k - K) < 1) by nia. lia. }
  subst k. rewrite Hr. unfold PyFloat.one_decimal.
  now rewrite !string_app_assoc.
Qed.

Lemma exact_tenths_printed_exactly_witness :
  response_rate
    (mkNode "0050.569f.0c60" (Some "10.25.5.37") "Po6" "4" None true
       123456789012345678901234567890 0)
  = Ok "100.0%" /\
  response_rate
    (mkNode "0050.569f.0c60" (Some "10.25.5.37") "Po6" "4" None false 7 7)
  = Ok "50.0%".
Proof.
  split.
  - apply (exact_tenths_printed_exactly
             (mkNode "0050.569f.0c60" (Some "10.25.5.37") "Po6" "4" None true
                123456789012345678901234567890 0) 1000);
      [split; cbn; lia | discriminate | reflexivity].
  - apply (exact_tenths_printed_exactly
             (mkNode "0050.569f.0c60" (Some "10.25.5.37") "Po6" "4" None false 7 7)
             500);
      [split; cbn; lia | discriminate | reflexivity].
Defined.

(** X8. The guard of [response_rate] is on the successes, not on the
    divisor: counts that cancel ([successes = - failures], not zero)
    raise [ZeroDivisionError], and the error surfaces through the row of
    the Node, taking precedence over a bad index in [update_row]. *)
Theorem cancelling_counts_raise (n : Node) (t : Table) (index : Z) :
  successful_pings n <> 0 -> successful_pings n + failed_pings n = 0 ->
  response_rate n = Err ZeroDivisionError /\
  row_of n = Err ZeroDivisionError /\
  update_row t n index = Err ZeroDivisionError /\
  pre_populate_table t [n] = Err ZeroDivisionError.
Proof.
  intros Hne Hsum.
  assert (H : response_rate n = Err ZeroDivisionError).
  { unfold response_rate.
    destruct (successful_pings n =? 0) eqn:H0; [apply Z.eqb_eq in H0; lia|].
    rewrite Hsum. reflexivity. }
  assert (Hrow : row_of n = Err ZeroDivisionError)
    by (unfold row_of; now rewrite H).
  split; [exact H|]. split; [exact Hrow|].
  split; [unfold update_row | cbn [pre_populate_table]]; now rewrite Hrow.
Qed.

Lemma cancelling_counts_raise_witness :
  response_rate
    (mkNode "0050.569f.0c60" (Some "10.25.5.37") "Po6" "4" None false 3 (-3))
  = Err ZeroDivisionError.
Proof.
  apply (cancelling_counts_raise
           (mkNode "0050.569f.0c60" (Some "10.25.5.37") "Po6" "4" None false 3 (-3))
           Table_init 0);
    [discriminate | reflexivity].
Defined.

(** ** More on the Table *)

Lemma update_row_out_of_range (t : Table) (node : Node) (index : Z) :
  counts_ok node ->
  index < - Z.of_nat (length (rows t)) \/ Z.of_nat (length (rows t)) <= index ->
  update_row t node index = Err IndexError.
Proof.
  intros Hok Hout. destruct (row_of_counts_ok node Hok) as [r Hr].
  unfold update_row. rewrite Hr. cbn [bind]. cbv zeta.
  destruct (index <? 0) eqn:Hneg;
    [apply Z.ltb_lt in Hneg | apply Z.ltb_ge in Hneg].
  - destruct (0 <=? index + Z.of_nat (length (rows t))) eqn:H0; [|reflexivity].
    apply Z.leb_le in H0. lia.
  - destruct (index <? Z.of_nat (length (rows t))) eqn:H1;
      [apply Z.ltb_lt in H1; lia|].
    now rewrite andb_false_r.
Qed.

Lemma pre_populate_table_app (a b : list Node) :
  forall t,
  pre_populate_table t (a ++ b)
  = (ta <- pre_populate_table t a ;; pre_populate_table ta b).
Proof.
  induction a as [ | node a IH ]; intros t; [reflexivity|].
  cbn [app pre_populate_table].
  destruct (row_of node) as [r | e]; cbn [bind]; [apply IH | reflexivity].
Qed.

(** X9. The index of [update_row] is a Python list index. An index at or
    beyond the number of rows, or below its negation, raises
    [IndexError] (so every index does on an empty Table) and a negative
    index within range counts from the last row: [-1] replaces the last
    row. The Table is never extended by [update_row]. *)
Theorem update_row_index (t : Table) (node : Node) (index : Z) :
  counts_ok node ->
  (index < - Z.of_nat (length (rows t)) \/ Z.of_nat (length (rows t)) <= index ->
     update_row t node index = Err IndexError) /\
  (- Z.of_nat (length (rows t)) <= index < 0 ->
     exists r, row_of node = Ok r /\
       update_row t node index
       = Ok {| headers := headers t;
               rows := <[(length (rows t) - Z.to_nat (- index))%nat := r]>
                         (rows t) |}).
Proof.
  intros Hok. split; [apply update_row_out_of_range, Hok|].
  intros Hin. destruct (row_of_counts_ok node Hok) as [r Hr].
  exists r. split; [exact Hr|].
  unfold update_row. rewrite Hr. cbn [bind]. cbv zeta.
  destruct (index <? 0) eqn:Hneg; [|apply Z.ltb_ge in Hneg; lia].
  destruct (0 <=? index + Z.of_nat (length (rows t))) eqn:H0;
    [|apply Z.leb_gt in H0; lia].
  destruct (index + Z.of_nat (length (rows t)) <? Z.of_nat (length (rows t))) eqn:H1;
    [|apply Z.ltb_ge in H1; lia].
  cbn [andb]. do 3 f_equal. lia.
Qed.

Lemma update_row_index_witness :
  let a := Node_init "0050.569f.0c60" (Some "10.25.5.37") "Po6" "4" in
  let new := [Some "Po6"; Some "4"; Some "0050.569f.0c60"; Some "10.25.5.37";
              None; Some "0%"] in
  let t := {| headers := headers Table_init; rows := [[]; []] |} in
  counts_ok a /\
  update_row t a 2 = Err IndexError /\
  update_row t a (-3) = Err IndexError /\
  update_row Table_init a 0 = Err IndexError /\
  update_row t a (-1)
  = Ok {| headers := headers Table_init; rows := [[]; new] |}.
Proof.
  cbv zeta.
  assert (Hok : counts_ok (Node_init "0050.569f.0c60" (Some "10.25.5.37") "Po6" "4"))
    by (split; cbn; lia).
  split; [exact Hok|].
  split; [apply (update_row_index _ _ 2 Hok); cbn; lia|].
  split; [apply (update_row_index _ _ (-3) Hok); cbn; lia|].
  split; [apply (update_row_index _ _ 0 Hok); cbn; lia|].
  destruct (update_row_index
              {| headers := headers Table_init; rows := [[]; []] |} _ (-1) Hok)
    as [_ Hneg].
  destruct (Hneg ltac:(cbn; lia)) as (r & Hr & Hup).
  cbn in Hr. injection Hr as <-. exact Hup.
Defined.

(** X10. Seeding appends: the rows a Table already has are kept, in
    front, and one projection per Node is added after them, so seeding
    with one list and then another is seeding with the two in a row, and
    seeding twice with the same Nodes doubles the rows. The headers do
    not change. *)
Theorem seeding_appends (t : Table) (a b : list Node) :
  Forall counts_ok a -> Forall counts_ok b ->
  exists ra rb,
    Forall2 (fun node r => row_of node = Ok r) a ra /\
    Forall2 (fun node r => row_of node = Ok r) b rb /\
    pre_populate_table t a
    = Ok {| headers := headers t; rows := rows t ++ ra |} /\
    pre_populate_table {| headers := headers t; rows := rows t ++ ra |} b
    = Ok {| headers := headers t; rows := rows t ++ ra ++ rb |} /\
    pre_populate_table t (a ++ b)
    = Ok {| headers := headers t; rows := rows t ++ ra ++ rb |}.
Proof.
  intros Ha Hb.
  destruct (pre_populate_table_ok a t Ha) as (ra & Hra & Heqa).
  destruct (pre_populate_table_ok b
              {| headers := headers t; rows := rows t ++ ra |} Hb)
    as (rb & Hrb & Heqb).
  cbn [headers rows] in Heqb. rewrite <- app_assoc in Heqb.
  exists ra, rb. split; [exact Hra|]. split; [exact Hrb|].
  split; [exact Heqa|]. split; [exact Heqb|].
  now rewrite pre_populate_table_app, Heqa.
Qed.

Lemma seeding_appends_witness :
  let a := Node_init "0050.569f.0c60" (Some "10.25.5.37") "Po6" "4" in
  let r := [Some "Po6"; Some "4"; Some "0050.569f.0c60"; Some "10.25.5.37";
            None; Some "0%"] in
  Forall counts_ok [a] /\
  pre_populate_table {| headers := headers Table_init; rows := [r] |} [a]
  = Ok {| headers := headers Table_init; rows := [r; r] |} /\
  pre_populate_table Table_init [a; a]
  = Ok {| headers := headers Table_init; rows := [r; r] |}.
Proof.
  cbv zeta.
  assert (Hok : Forall counts_ok
                  [Node_init "0050.569f.0c60" (Some "10.25.5.37") "Po6" "4"])
    by (repeat constructor; cbn; lia).
  split; [exact Hok|].
  destruct (seeding_appends Table_init _ _ Hok Hok)
    as (ra & rb & Hra & Hrb & Ha & Hb & Hab).
  apply Forall2_cons_inv_l in Hra as (x & ? & Hx & ->%Forall2_nil_inv_l & ->).
  apply Forall2_cons_inv_l in Hrb as (y & ? & Hy & ->%Forall2_nil_inv_l & ->).
  cbn in Hx, Hy. injection Hx as <-. injection Hy as <-.
  split; [exact Hb | exact Hab].
Defined.

Section ShortTable.

Variable os_system_status : nat -> string -> Z.
Variable os_system_output : nat -> string -> string.
Variable datetime : Type.
Variable datetime_now : nat -> datetime.
Variable datetime_str : datetime -> string.
Variable tabulate : list row -> list string -> string.

Lemma monitor_nodes_short (start : datetime) (nodes : list Node) :
  forall (i : nat) (table : Table) (w : World),
  Forall counts_ok nodes ->
  (exists (j : nat) node, nodes !! j = Some node /\ ip_address node <> None /\
     (length (rows table) <= i + j)%nat) ->
  monitor_nodes os_system_status os_system_output datetime datetime_now
    datetime_str tabulate nodes (Z.of_nat i) table start w
  = Err IndexError.
Proof.
  induction nodes as [ | node nodes IH ]; intros i table w Hok (j & x & Hj & Hx & Hlen).
  { rewrite lookup_nil in Hj. discriminate. }
  apply Forall_cons in Hok as [Hnode Hok]. cbn [monitor_nodes].
  replace (Z.of_nat i + 1) with (Z.of_nat (S i)) by lia.
  destruct (ip_address node) as [a | ] eqn:Hip.
  - set (p := ping os_system_status os_system_output node w).
    assert (Hok1 : counts_ok (fst p))
      by (unfold p, ping; cbn [fst os_system]; now apply record_outcome_counts_ok).
    destruct p as [node1 w1]. cbn [fst] in Hok1.
    destruct (le_lt_dec (length (rows table)) i) as [Hshort | Hlong].
    + rewrite (update_row_out_of_range table node1 (Z.of_nat i) Hok1) by lia.
      reflexivity.
    + destruct (update_row_ok table node1 i Hok1 Hlong) as (r & Hr & ->).
      cbn [bind now].
      rewrite IH; [reflexivity | exact Hok |].
      destruct j as [ | j ]; [lia|]. cbn in Hj.
      exists j, x. split; [exact Hj|]. split; [exact Hx|].
      cbn [rows]. rewrite length_insert. lia.
  - rewrite IH; [reflexivity | exact Hok |].
    destruct j as [ | j ]; cbn in Hj; [congruence|].
    exists j, x. split; [exact Hj|]. split; [exact Hx|]. lia.
Qed.

(** X11. The loop relies on the Table having a row for every Node. When
    a Node that has an address sits at a position the Table has no row
    for, the first pass raises [IndexError] from [update_row]; the loop
    never adds the missing row. *)
Theorem short_table_raises (start : datetime) (n : nat)
    (nodes : list Node) (table : Table) (w : World) :
  Forall counts_ok nodes ->
  (exists (j : nat) node, nodes !! j = Some node /\ ip_address node <> None /\
     (length (rows table) <= j)%nat) ->
  monitor os_system_status os_system_output datetime datetime_now
    datetime_str tabulate (S n) nodes table start w
  = Err IndexError.
Proof.
  intros Hok Hshort. cbn [monitor]. unfold cycle.
  change 0 with (Z.of_nat 0).
  now rewrite (monitor_nodes_short start nodes 0 table w Hok Hshort).
Qed.

End ShortTable.

Lemma short_table_raises_witness :
  let a := Node_init "0050.569f.0c60" (Some "10.25.5.37") "Po6" "4" in
  let b := Node_init "0050.569f.0c61" (Some "10.25.5.38") "Po7" "4" in
  let seeded :=
    {| headers := headers Table_init;
       rows := [[Some "Po6"; Some "4"; Some "0050.569f.0c60"; Some "10.25.5.37";
                 None; Some "0%"]] |} in
  Forall counts_ok [a; b] /\
  monitor (fun _ _ => 0) (fun _ _ => "") nat (fun i => i)
    (fun _ => "") (fun _ _ => "") 1 [a; b] seeded 0%nat (mkWorld ∅ [] 0)
  = Err IndexError.
Proof.
  cbv zeta.
  assert (Hok : Forall counts_ok
                  [Node_init "0050.569f.0c60" (Some "10.25.5.37") "Po6" "4";
                   Node_init "0050.569f.0c61" (Some "10.25.5.38") "Po7" "4"])
    by (repeat constructor; cbn; lia).
  split; [exact Hok|].
  apply (short_table_raises (fun _ _ => 0) (fun _ _ => "") nat (fun i => i)
           (fun _ => "") (fun _ _ => "") 0%nat 0 _ _ _ Hok).
  exists 1%nat, (Node_init "0050.569f.0c61" (Some "10.25.5.38") "Po7" "4").
  split; [reflexivity|]. split; [discriminate | cbn; lia].
Defined.

(** ** More on discovery *)

Lemma split_nonempty (sep : ascii) (s : string) : split sep s <> [].
Proof.
  destruct s as [ | c s ]; cbn [split]; [discriminate|].
  destruct (Ascii.eqb c sep); [discriminate|].
  destruct (split sep s); discriminate.
Qed.

Lemma split_app (sep : ascii) (a b : string) :
  split sep (a +:+ String sep b) = split sep a ++ split sep b.
Proof.
  induction a as [ | c a IH ].
  - rewrite PatternFacts.string_app_nil. cbn [split]. now rewrite Ascii.eqb_refl.
  - rewrite string_app_cons. cbn [split]. rewrite IH.
    destruct (Ascii.eqb c sep); [reflexivity|].
    pose proof (split_nonempty sep a) as Hne.
    destruct (split sep a) as [ | l ls ]; [contradiction | reflexivity].
Qed.

Lemma collect_vlan_and_mac_app (l1 l2 : list string) :
  forall p1 p2,
  collect_vlan_and_mac l1 = Ok p1 -> collect_vlan_and_mac l2 = Ok p2 ->
  collect_vlan_and_mac (l1 ++ l2) = Ok (p1 ++ p2).
Proof.
  induction l1 as [ | line l1 IH ]; intros p1 p2 H1 H2.
  - cbn in H1. injection H1 as <-. exact H2.
  - cbn [app collect_vlan_and_mac] in *.
    destruct (Re.match_groupdict mac_line line) as [groups | ]; [|now apply IH].
    destruct (Re.getitem groups "vlan") as [v | e]; cbn [bind] in *; [|discriminate].
    destruct (Re.getitem groups "mac_address") as [m | e]; cbn [bind] in *;
      [|discriminate].
    destruct (collect_vlan_and_mac l1) as [rest | e]; cbn [bind] in *; [|discriminate].
    injection H1 as <-. now rewrite (IH rest p2 eq_refl H2).
Qed.

Lemma collect_vlan_and_mac_length (lines : list string) (pairs : list (string * string)) :
  collect_vlan_and_mac lines = Ok pairs -> (length pairs <= length lines)%nat.
Proof.
  revert pairs. induction lines as [ | line lines IH ]; intros pairs H.
  - cbn in H. injection H as <-. reflexivity.
  - cbn [collect_vlan_and_mac] in H.
    destruct (Re.match_groupdict mac_line line) as [groups | ].
    + destruct (Re.getitem groups "vlan") as [v | e]; cbn [bind] in H; [|discriminate].
      destruct (Re.getitem groups "mac_address") as [m | e]; cbn [bind] in H;
        [|discriminate].
      destruct (collect_vlan_and_mac lines) as [rest | e]; cbn [bind] in H;
        [|discriminate].
      injection H as <-. cbn [length]. specialize (IH rest eq_refl). lia.
    + specialize (IH pairs H). cbn [length]. lia.
Qed.

(** X12. The pairs of two outputs joined by a line break are the pairs
    of the first followed by the pairs of the second: the address table
    is read line by line, in order, each line on its own, and a pair
    that comes up twice is kept twice. *)
Theorem address_table_concat (a b : string) :
  exists pa pb,
    collect_vlan_and_mac (split (ascii_of_nat 10) a) = Ok pa /\
    collect_vlan_and_mac (split (ascii_of_nat 10) b) = Ok pb /\
    collect_vlan_and_mac (split (ascii_of_nat 10) (a +:+ nl +:+ b))
    = Ok (pa ++ pb).
Proof.
  destruct (collect_vlan_and_mac_spec (split (ascii_of_nat 10) a)) as (pa & Ha & _).
  destruct (collect_vlan_and_mac_spec (split (ascii_of_nat 10) b)) as (pb & Hb & _).
  exists pa, pb. split; [exact Ha|]. split; [exact Hb|].
  unfold nl. rewrite string_app_cons, PatternFacts.string_app_nil, split_app.
  now apply collect_vlan_and_mac_app.
Qed.

Section DiscoveryFacts.

Variable send_command : string -> string.

(** X13. Reading the address table of an interface never raises,
    whatever the device answers. The pairs it gives are exactly the
    (VLAN, MAC) of the lines of the output that are dynamic bound
    entries, and there are no more pairs than lines. *)
Theorem address_table_pairs (interface : string) :
  exists pairs,
    get_vlan_and_mac_addresses send_command interface = Ok pairs /\
    (forall vlan mac, (vlan, mac) ∈ pairs <->
       exists line,
         line ∈ split (ascii_of_nat 10)
                  (send_command ("show mac address-table interface " +:+ interface)) /\
         mac_entry line vlan mac) /\
    (length pairs
     <= length (split (ascii_of_nat 10)
                  (send_command ("show mac address-table interface " +:+ interface))))%nat.
Proof.
  unfold get_vlan_and_mac_addresses.
  destruct (collect_vlan_and_mac_spec
              (split (ascii_of_nat 10)
                 (send_command ("show mac address-table interface " +:+ interface))))
    as (pairs & Hpairs & Hiff).
  exists pairs. split; [exact Hpairs|]. split; [exact Hiff|].
  now apply collect_vlan_and_mac_length.
Qed.

Lemma get_ip_address_ok (mac : string) :
  exists ip, get_ip_address send_command mac = Ok ip.
Proof.
  unfold get_ip_address.
  destruct (parse_ip_address_inv
              (send_command ("show ip arp | include " +:+ mac)) _ eq_refl)
    as [(ip & -> & _) | [-> _]]; eexists; reflexivity.
Qed.

Lemma append_nodes_eq (interface : string) (pairs : list (string * string)) :
  exists new,
    Forall2 (fun p node =>
               get_ip_address send_command (snd p) = Ok (ip_address node) /\
               node = Node_init (snd p) (ip_address node) interface (fst p))
      pairs new /\
    forall nodes,
      append_nodes send_command nodes interface pairs = Ok (nodes ++ new).
Proof.
  induction pairs as [ | [vlan mac] pairs (new & Hnew & Hrun) ].
  - exists []. split; [constructor|]. intros nodes. cbn. now rewrite app_nil_r.
  - destruct (get_ip_address_ok mac) as [ip Hip].
    exists (Node_init mac ip interface vlan :: new). split.
    + constructor; [|exact Hnew]. cbn. split; [exact Hip | reflexivity].
    + intros nodes. cbn [append_nodes]. rewrite Hip. cbn [bind].
      now rewrite Hrun, <- app_assoc.
Qed.

Lemma create_attached_nodes_eq (interface : string) :
  exists pairs new,
    get_vlan_and_mac_addresses send_command interface = Ok pairs /\
    Forall2 (fun p node =>
               get_ip_address send_command (snd p) = Ok (ip_address node) /\
               node = Node_init (snd p) (ip_address node) interface (fst p))
      pairs new /\
    forall nodes,
      create_attached_nodes send_command nodes interface = Ok (nodes ++ new).
Proof.
  destruct (collect_vlan_and_mac_spec
              (split (ascii_of_nat 10)
                 (send_command ("show mac address-table interface " +:+ interface))))
    as (pairs & Hpairs & _).
  destruct (append_nodes_eq interface pairs) as (new & Hnew & Hrun).
  exists pairs, new. split; [exact Hpairs|]. split; [exact Hnew|].
  intros nodes. unfold create_attached_nodes, get_vlan_and_mac_addresses.
  rewrite Hpairs. cbn [bind]. apply Hrun.
Qed.

Lemma discover_eq (interfaces : list string) :
  exists new,
    Forall (fun node => name node = None /\ successful_pings node = 0 /\
                        failed_pings node = 0) new /\
    forall nodes,
      discover send_command nodes interfaces = Ok (nodes ++ new).
Proof.
  induction interfaces as [ | interface interfaces (new & Hfresh & Hnew) ].
  - exists []. split; [constructor|]. intros nodes. cbn. now rewrite app_nil_r.
  - destruct (create_attached_nodes_eq interface) as (pairs & new1 & _ & Hmade & Hrun).
    exists (new1 ++ new). split.
    + apply Forall_app. split; [|exact Hfresh].
      apply Forall_forall. intros node (i & Hi)%list_elem_of_lookup.
      destruct (Forall2_lookup_r _ _ _ _ _ Hmade Hi) as (p & _ & _ & ->).
      repeat split.
    + intros nodes. cbn [discover].
      rewrite Hrun. cbn [bind]. now rewrite Hnew, <- app_assoc.
Qed.

Lemma discover_app (i1 i2 : list string) :
  forall nodes,
  discover send_command nodes (i1 ++ i2)
  = (found <- discover send_command nodes i1 ;; discover send_command found i2).
Proof.
  induction i1 as [ | interface i1 IH ]; intros nodes; [reflexivity|].
  cbn [app discover].
  destruct (create_attached_nodes send_command nodes interface) as [nodes1 | e];
    cbn [bind]; [apply IH | reflexivity].
Qed.


(** X15. Discovery goes through the interfaces in order and only ever
    appends: scanning a list of interfaces followed by another gives the
    Nodes found before, then those of the first list, then those of the
    second. Nothing is removed or merged, so an interface that is listed
    twice has its Nodes twice (the device giving the same answer to the
    same command). *)
Theorem discover_concatenates (i1 i2 : list string) :
  exists new1 new2,
    discover send_command [] i1 = Ok new1 /\
    discover send_command [] i2 = Ok new2 /\
    forall nodes,
      discover send_command nodes (i1 ++ i2) = Ok (nodes ++ new1 ++ new2).
Proof.
  destruct (discover_eq i1) as (new1 & _ & H1).
  destruct (discover_eq i2) as (new2 & _ & H2).
  exists new1, new2. split; [apply (H1 [])|]. split; [apply (H2 [])|].
  intros nodes. now rewrite discover_app, H1; cbn [bind]; rewrite H2, <- app_assoc.
Qed.



End DiscoveryFacts.

(** ** The program from discovery to the [n]-th pass *)

Section WholeProgramFacts.

Variable send_command : string -> string.
Variable gethostbyaddr : string -> option string.
Variable os_system_status : nat -> string -> Z.
Variable os_system_output : nat -> string -> string.
Variable datetime : Type.
Variable datetime_now : nat -> datetime.
Variable datetime_str : datetime -> string.
Variable tabulate : list row -> list string -> string.
Variable INTERFACES : list string.

Local Abbreviation main_ :=
  (main send_command gethostbyaddr os_system_status os_system_output
     datetime datetime_now datetime_str tabulate INTERFACES).

Lemma probes_resolve_names (nodes : list Node) :
  probes (resolve_names gethostbyaddr nodes) = probes nodes.
Proof.
  induction nodes as [ | node nodes IH ]; [reflexivity|].
  unfold resolve_names in *. cbn [map].
  destruct (ip_address node) as [a | ] eqn:Hip; cbn [probes].
  - cbn [ip_address nslookup]. rewrite Hip, IH. unfold ping_command.
    cbn [ip_address nslookup]. now rewrite Hip.
  - now rewrite Hip.
Qed.

Lemma resolve_names_fresh (found : list Node) :
  Forall (fun node => name node = None /\ successful_pings node = 0 /\
                      failed_pings node = 0) found ->
  Forall2 (fun f r =>
             mac_address r = mac_address f /\ ip_address r = ip_address f /\
             interface r = interface f /\ vlan r = vlan f /\
             name r = match ip_address f with
                      | Some a => gethostbyaddr a
                      | None => None
                      end /\
             successful_pings r = 0 /\ failed_pings r = 0)
    found (resolve_names gethostbyaddr found).
Proof.
  intros Hfresh. unfold resolve_names. apply Forall2_fmap_r, Forall_Forall2_diag.
  eapply Forall_impl; [exact Hfresh|]. intros f (Hname & Hs & Hf).
  destruct (ip_address f) as [a | ] eqn:Hip; cbn; rewrite ?Hip; repeat split;
    try assumption.
  unfold nslookup. cbn [name]. now rewrite Hip.
Qed.


(** X18. What [n] passes make of the Nodes that discovery found. The
    Nodes are the same, in the same order, with their MAC, address,
    interface and VLAN unchanged. The name of a Node is what the reverse
    lookup of its address gave, once, before the loop (absent when the
    lookup failed or the Node has no address). A Node that has an
    address has been probed [n] times, its two counts summing to [n];
    one that has none has both counts at zero. The shell has run the
    probes of the Nodes with an address, pass after pass, and nothing
    else, and the clock has been read once before the loop and once per
    probe. *)
Theorem program_nodes (n : nat) (w : World) :
  exists found nodes table w',
    discover send_command [] INTERFACES = Ok found /\
    main_ n w = Ok (nodes, table, w') /\
    Forall2 (fun f node =>
               mac_address node = mac_address f /\
               ip_address node = ip_address f /\
               interface node = interface f /\ vlan node = vlan f /\
               name node = match ip_address f with
                           | Some a => gethostbyaddr a
                           | None => None
                           end /\
               0 <= successful_pings node /\ 0 <= failed_pings node /\
               successful_pings node + failed_pings node
               = if has_address f then Z.of_nat n else 0)
      found nodes /\
    shell_log w' = shell_log w ++ concat (replicate n (probes found)) /\
    clock_reads w' = (Datatypes.S (clock_reads w) + n * length (probes found))%nat.
Proof.
  unfold main.
  destruct (discover_eq send_command INTERFACES) as (found & Hfresh & Hfound).
  exists found. rewrite (Hfound []). cbn [bind app].
  pose proof (resolve_names_fresh found Hfresh) as Hres.
  pose proof (probes_resolve_names found) as Hprobes.
  assert (Hok : Forall counts_ok (resolve_names gethostbyaddr found)).
  { apply resolve_names_counts_ok. eapply Forall_impl; [exact Hfresh|].
    intros node (_ & Hs & Hf). split; lia. }
  set (nodes := resolve_names gethostbyaddr found) in *.
  destruct (pre_populate_table_ok nodes Table_init Hok) as (rs & Hrs & ->).
  cbn [bind now rows Table_init app].
  set (table := {| headers := headers Table_init; rows := rs |}).
  set (w1 := {| files := files w; shell_log := shell_log w;
                clock_reads := Datatypes.S (clock_reads w) |}).
  assert (Hlen : length (rows table) = length nodes)
    by (cbn [rows table]; symmetry; eapply Forall2_length; exact Hrs).
  destruct (monitor_spec os_system_status os_system_output datetime datetime_now
              datetime_str tabulate (datetime_now (clock_reads w)) n nodes table
              w1 Hok Hlen)
    as (nodes' & table' & w' & Hmon & _ & _ & _ & Hlog & _).
  destruct (monitor_effects os_system_status os_system_output datetime
              datetime_now datetime_str tabulate (datetime_now (clock_reads w))
              n nodes table w1 Hok Hlen)
    as (nodes2 & table2 & w2 & Hmon2 & Hpr & _ & Hclk & _).
  rewrite Hmon in Hmon2. injection Hmon2 as <- <- <-.
  exists nodes', table', w'. split; [reflexivity|]. split; [exact Hmon|].
  rewrite Hprobes in Hlog, Hclk.
  split; [|split; [exact Hlog | exact Hclk]].
  eapply Forall2_trans; [|exact Hres|exact Hpr].
  intros f r node (Hm & Hip & Hi & Hv & Hname & Hs & Hf) [(Hm' & Hip' & Hi' & Hv' & Hname') Hcount].
  unfold has_address in *. rewrite Hip in Hcount.
  repeat (split; [congruence|]).
  destruct (ip_address f).
  - destruct Hcount as (Hsum & Hs' & Hf'). lia.
  - subst node. lia.
Qed.

End WholeProgramFacts.

(** ** More on the snapshot *)

Section SnapshotFacts.

Variable datetime : Type.
Variable datetime_str : datetime -> string.
Variable tabulate : list row -> list string -> string.

(** X19. The snapshot is written whole and holds no trace of what was
    there before: after [save] the file reads as the two timestamps, a
    blank line and the rendering of the Table, whatever it held, and a
    [save] that follows another leaves the world as if the first had
    never happened. No other file is touched. *)
Theorem save_overwrites (t1 t2 : Table) (s1 e1 s2 e2 : datetime) (w : World) :
  read_file "output_table.txt" (save datetime datetime_str tabulate t2 s2 e2 w)
  = datetime_str s2 +:+ " - " +:+ datetime_str e2 +:+ nl +:+ nl
      +:+ tabulate (rows t2) (headers t2) /\
  save datetime datetime_str tabulate t2 s2 e2
    (save datetime datetime_str tabulate t1 s1 e1 w)
  = save datetime datetime_str tabulate t2 s2 e2 w /\
  forall path, path <> "output_table.txt" ->
    files (save datetime datetime_str tabulate t2 s2 e2 w) !! path
    = files w !! path.
Proof.
  unfold save, write_file, read_file. cbn [files shell_log clock_reads].
  split; [now rewrite lookup_insert_eq|].
  split; [now rewrite insert_insert_eq|].
  intros path Hpath. now apply lookup_insert_ne.
Qed.

End SnapshotFacts.
